(** * WPP live-picks client

    A shallow embedding of [src/lib/wpp.ts] (payload flattening and the two
    backend calls) and of [src/app/page.tsx] (tooltip text, CSV export,
    table sorting and the refresh handlers of the [Home] component),
    followed by the properties established about them.

    Conventions.
    - A JavaScript [number] is an IEEE binary64 value: Rocq's primitive
      [float].  Arithmetic and comparisons are the kernel's.
    - A JavaScript string is a [string]; non-ASCII characters of the
      source literals appear as their UTF-8 bytes.
    - A property that may be missing, or hold JSON null, is an [Opt].
    - What the engine provides and the repository does not define
      (number printing, locale collation, numeric parsing of a header) is
      the interface [Engine]. *)

From Stdlib Require Import ZArith String Ascii List Floats DecimalString.
From Stdlib Require Import DecimalZ.
From Stdlib Require Import Permutation.
From stdpp Require Import gmap strings list.

Open Scope string_scope.
Open Scope list_scope.
Open Scope stdpp_scope.
Set Warnings "-inexact-float".

(** ** JavaScript values *)

(** [x?: T | null]: absent, null, or a value. *)
Inductive Opt (A : Type) : Type :=
| Undefined : Opt A
| Null : Opt A
| Val : A -> Opt A.

Arguments Undefined {A}.
Arguments Null {A}.
Arguments Val {A} _.

(** [o?.f]: the access is skipped on a nullish receiver. *)
Definition chain {A B : Type} (o : Opt A) (f : A -> Opt B) : Opt B :=
  match o with
  | Val a => f a
  | _ => Undefined
  end.

(** [o ?? d] where [d] may itself be nullish. *)
Definition coalesce {A : Type} (o d : Opt A) : Opt A :=
  match o with
  | Val a => Val a
  | _ => d
  end.

(** [o ?? d] where [d] is a definite value. *)
Definition or_else {A : Type} (o : Opt A) (d : A) : A :=
  match o with
  | Val a => a
  | _ => d
  end.

(** [o ?? null], of type [T | null]. *)
Definition or_null {A : Type} (o : Opt A) : option A :=
  match o with
  | Val a => Some a
  | _ => None
  end.

Notation "o ?. f" := (chain o f) (at level 25, left associativity).
Notation "o ?? d" := (or_else o d) (at level 45, left associativity).

(** What a dynamic property read [(r as any)[h]] can yield on a row. *)
Inductive value : Type :=
| VUndefined : value
| VNull : value
| VBool : bool -> value
| VNum : float -> value
| VStr : string -> value.

Definition of_nullable {A : Type} (inj : A -> value) (o : option A) : value :=
  match o with
  | Some a => inj a
  | None => VNull
  end.

Definition of_opt {A : Type} (inj : A -> value) (o : Opt A) : value :=
  match o with
  | Val a => inj a
  | Null => VNull
  | Undefined => VUndefined
  end.

(** [v == null]: true of null and of undefined. *)
Definition is_nullish (v : value) : bool :=
  match v with
  | VUndefined | VNull => true
  | _ => false
  end.

(** ** Strings *)

(** The double quote character, code 34. *)
Definition dquote : ascii := ascii_of_nat 34.

(** The line feed character, code 10. *)
Definition LF : ascii := ascii_of_nat 10.

Definition str1 (c : ascii) : string := String c EmptyString.

(** [xs.join(sep)]. *)
Fixpoint join (sep : string) (xs : list string) : string :=
  match xs with
  | [] => EmptyString
  | [x] => x
  | x :: rest => x +:+ sep +:+ join sep rest
  end.

(** [s.replaceAll(dquote, dquote dquote)]. *)
Fixpoint double_quotes (s : string) : string :=
  match s with
  | EmptyString => EmptyString
  | String c rest =>
      if Ascii.eqb c dquote
      then String dquote (String dquote (double_quotes rest))
      else String c (double_quotes rest)
  end.

(** Decimal digits of a non-negative integer, [0] printing as one digit. *)
Definition digits (n : Z) : string :=
  NilZero.string_of_uint (N.to_uint (Z.to_N n)).

Fixpoint zeros (k : nat) : string :=
  match k with
  | O => EmptyString
  | S k' => String "0" (zeros k')
  end.

(** ** Rows (page.tsx, [type Row]) *)

Record Row : Type := {
  tier : string;
  side : string;
  away : string;
  home : string;
  market_spread_home : option float;
  fair_home_spread : option float;
  required_buy_points : option float;
  buy_to_line : option float;
  p_current : option float;
  p_target : option float;
  p_buy : option float;
  price_est : option float;
  price_max_ok : option float;
  ev_ok : option bool;
  reason : Opt string
}.

(** ** Backend payloads (wpp.ts)

    The play of a /best_edges answer, with the properties [mapPlayToRow]
    reads.  Each one may be missing or null, at every level. *)

Module Raw.

Module Game.
Record t : Type := { away : Opt string; home : Opt string }.
Definition empty : t := {| away := Undefined; home := Undefined |}.
End Game.

Module Spread.
Record t : Type := { home : Opt float }.
End Spread.

Module Market.
Record t : Type := { spread_home : Opt float; spread : Opt Spread.t }.
Definition empty : t := {| spread_home := Undefined; spread := Undefined |}.
End Market.

Module Fair.
Record t : Type := { home_spread : Opt float }.
Definition empty : t := {| home_spread := Undefined |}.
End Fair.

Module Required.
Record t : Type := { buy_points : Opt float; buy_to_line : Opt float }.
Definition empty : t := {| buy_points := Undefined; buy_to_line := Undefined |}.
End Required.

Module Prob.
Record t : Type := { current : Opt float; target : Opt float; buy : Opt float }.
Definition empty : t :=
  {| current := Undefined; target := Undefined; buy := Undefined |}.
End Prob.

Module Pricing.
Record t : Type := {
  final_price : Opt float;
  max_acceptable_price : Opt float;
  ev_ok : Opt bool
}.
Definition empty : t :=
  {| final_price := Undefined; max_acceptable_price := Undefined;
     ev_ok := Undefined |}.
End Pricing.

Module Play.
Record t : Type := {
  tier : Opt string;
  recommendation : Opt string;
  game : Opt Game.t;
  market : Opt Market.t;
  fair : Opt Fair.t;
  required : Opt Required.t;
  prob : Opt Prob.t;
  pricing : Opt Pricing.t;
  reason : Opt string
}.
(** The object literal with no property. *)
Definition empty : t :=
  {| tier := Undefined; recommendation := Undefined; game := Undefined;
     market := Undefined; fair := Undefined; required := Undefined;
     prob := Undefined; pricing := Undefined; reason := Undefined |}.
End Play.

(** The body of a /best_edges answer. *)
Record Edges : Type := { plays : Opt (list (Opt Play.t)) }.

End Raw.

(** The body of a /report answer and what [fetchReport] makes of it. *)
Module Report.

Record Sections : Type := {
  fire : Opt (list Row);
  watch : Opt (list Row)
}.

Record Summary : Type := { by_tier : Opt (gmap string float) }.

Record Data : Type := { sections : Opt Sections; summary : Opt Summary }.

Record Rate : Type := { limit : float; remaining : float }.

Record Cache : Type := { status : string; ttl : float }.

(** [data] is [None] when the body is the JSON text null. *)
Record Result : Type := { data : option Data; rate : Rate; cache : Cache }.

End Report.

(** ** HTTP *)

Module Http.

(** [res.json()]: the parsed body, or the message of the syntax error. *)
Inductive Json (B : Type) : Type :=
| Malformed : string -> Json B
| Parsed : B -> Json B.

Arguments Malformed {B} _.
Arguments Parsed {B} _.

Record Response (B : Type) : Type := {
  status : nat;
  headers_get : string -> option string;
  json : Json B
}.

Arguments status {B} _.
Arguments headers_get {B} _ _.
Arguments json {B} _.

(** [res.ok]: the status is in the range 200 to 299. *)
Definition ok {B : Type} (res : Response B) : bool :=
  (200 <=? status res)%nat && (status res <=? 299)%nat.

(** [await fetch(url)]: a response, or the message of the network error. *)
Inductive Fetched (B : Type) : Type :=
| Failed : string -> Fetched B
| Responded : Response B -> Fetched B.

Arguments Failed {B} _.
Arguments Responded {B} _.

End Http.

(** How a promise settles; a rejection carries [e.message]. *)
Inductive Settled (A : Type) : Type :=
| Rejected : string -> Settled A
| Fulfilled : A -> Settled A.

Arguments Rejected {A} _.
Arguments Fulfilled {A} _.

(** ** Component state (page.tsx, [Home]) *)

Inductive Metric : Type := spread | ml | total.

Inductive SortDir : Type := asc | desc.

(** The parameters a call of [doFetch] closes over. *)
Record Params : Type := { par_metric : Metric; par_targetProb : float }.

(** The state cells [doFetch] and its handlers read or write. *)
Record State : Type := {
  metric : Metric;
  debouncedTarget : float;
  fire : list Row;
  watch : list Row;
  garbage : list Row;
  byTier : gmap string float;
  rate : Report.Rate;
  cache : Report.Cache;
  err : option string;
  loading : bool;
  lastUpdated : option Z
}.

(** The initial values of the state cells. *)
Definition initial : State :=
  {| metric := spread;
     debouncedTarget := 0.65%float;
     fire := [];
     watch := [];
     garbage := [];
     byTier := ∅;
     rate := {| Report.limit := 0%float; Report.remaining := 0%float |};
     cache := {| Report.status := "MISS"; Report.ttl := 0%float |};
     err := None;
     loading := true;
     lastUpdated := None |}.

(** Arrays live in a store; a variable holds a location. *)
Abbreviation Heap := (gmap nat (list Row)).

(** ** The engine interface *)

Class Engine : Type := {
  (** [String(x)] on a number: ECMAScript Number::toString, radix 10. *)
  Number_toString : float -> string;
  (** [Number(s)] on a string. *)
  Number_ofString : string -> float;
  (** [a.localeCompare(b)]: negative, zero or positive. *)
  localeCompare : string -> string -> float;
  (** The message of the TypeError raised by a property read on null. *)
  null_read_message : string -> string
}.

Section Client.

Context {engine : Engine}.

(** ** Number formatting *)

(** The integer [n] for which [n / 10^f - x] is closest to zero, the larger
    one on a tie, for a finite [x >= 0] given exactly as [m * 2^e]. *)
Definition nearest_scaled (m e : Z) (f : nat) : Z :=
  let num := (m * 10 ^ Z.of_nat f)%Z in
  if (0 <=? e)%Z then (num * 2 ^ e)%Z
  else let den := (2 ^ (- e))%Z in ((2 * num + den) / (2 * den))%Z.

(** [x.toFixed(f)], after Number.prototype.toFixed of ECMAScript. *)
Definition toFixed (x : float) (f : nat) : string :=
  match Prim2SF x with
  | S754_nan | S754_infinity _ => Number_toString x
  | S754_zero _ =>
      if f is O then "0" else "0." +:+ zeros f
  | S754_finite neg m e =>
      let s := if neg then "-" else "" in
      if (1e21 <=? abs x)%float then s +:+ Number_toString (abs x)
      else
        let n := nearest_scaled (Z.pos m) e f in
        let d := digits n in
        if f is O then s +:+ d
        else
          let k := String.length d in
          let d' := if (k <=? f)%nat then zeros (f + 1 - k) +:+ d else d in
          let k' := String.length d' in
          s +:+ substring 0 (k' - f) d' +:+ "." +:+ substring (k' - f) f d'
  end.

(** The own properties of a row object, by name. *)
Definition properties (r : Row) : list (string * value) :=
  [ ("tier", VStr (tier r));
    ("side", VStr (side r));
    ("away", VStr (away r));
    ("home", VStr (home r));
    ("market_spread_home", of_nullable VNum (market_spread_home r));
    ("fair_home_spread", of_nullable VNum (fair_home_spread r));
    ("required_buy_points", of_nullable VNum (required_buy_points r));
    ("buy_to_line", of_nullable VNum (buy_to_line r));
    ("p_current", of_nullable VNum (p_current r));
    ("p_target", of_nullable VNum (p_target r));
    ("p_buy", of_nullable VNum (p_buy r));
    ("price_est", of_nullable VNum (price_est r));
    ("price_max_ok", of_nullable VNum (price_max_ok r));
    ("ev_ok", of_nullable VBool (ev_ok r));
    ("reason", of_opt VStr (reason r)) ].

Fixpoint assoc (k : string) (kvs : list (string * value)) : option value :=
  match kvs with
  | [] => None
  | (k', v) :: rest => if String.eqb k k' then Some v else assoc k rest
  end.

(** [(r as any)[h]]. *)
Definition prop (r : Row) (h : string) : value :=
  match assoc h (properties r) with
  | Some v => v
  | None => VUndefined
  end.

(** [String(v)] for a value that is not nullish. *)
Definition String_of (v : value) : string :=
  match v with
  | VUndefined => "undefined"
  | VNull => "null"
  | VBool true => "true"
  | VBool false => "false"
  | VNum x => Number_toString x
  | VStr s => s
  end.

(** ** Tooltip text (page.tsx, [explain] and the [fmt] helpers) *)

Definition em_dash : string := "—".

Definition fmtP (v : option float) : string :=
  match v with
  | None => em_dash
  | Some x => toFixed (x * 100)%float 1 +:+ "%"
  end.

Definition fmtNum (v : option float) : string :=
  match v with
  | None => em_dash
  | Some x => Number_toString x
  end.

Definition fmtPrice (v : option float) : string :=
  match v with
  | None => em_dash
  | Some x => if (0 <? x)%float then "+" +:+ Number_toString x
              else Number_toString x
  end.

(** The clause both the Fire and the Watch branch append. *)
Definition evPart (pe pmax : option float) (ev : option bool) : string :=
  match pe, pmax, ev with
  | Some _, Some _, Some b =>
      " EV check at est price " +:+ fmtPrice pe +:+ " vs max " +:+
      fmtPrice pmax +:+ ": " +:+ (if b then "OK" else "FAIL") +:+ "."
  | _, _, _ => ""
  end.

(** Truthiness of [r.reason]: a string that is not empty. *)
Definition truthy_string (o : Opt string) : option string :=
  match o with
  | Val (String c s) => Some (String c s)
  | _ => None
  end.

Definition explain (r : Row) : string :=
  let pc := p_current r in
  let pb := p_buy r in
  let pt := p_target r in
  let bp := required_buy_points r in
  let ev := ev_ok r in
  let pe := price_est r in
  let pmax := price_max_ok r in
  if String.eqb (tier r) "Fire" then
    "Fire because p(now) " +:+ fmtP pc +:+ " ≥ p(target) " +:+ fmtP pt +:+
    " (no/cheap buys)." +:+ evPart pe pmax ev
  else if String.eqb (tier r) "Watch" then
    "Watch because it needs buys to reach target: buy " +:+ fmtNum bp +:+
    " pts to " +:+ fmtNum (buy_to_line r) +:+ "; p(buy) " +:+ fmtP pb +:+
    " ≥ p(target) " +:+ fmtP pt +:+ "." +:+ evPart pe pmax ev
  else
    match truthy_string (reason r) with
    | Some s => s
    | None =>
        match pb, pt with
        | Some b, Some t =>
            if (b <? t)%float then
              "Garbage because even after buying, p(buy) " +:+ fmtP pb +:+
              " < p(target) " +:+ fmtP pt +:+ "."
            else
              "Garbage because required buy or price violates rules, or value insufficient."
        | _, _ =>
            "Garbage because required buy or price violates rules, or value insufficient."
        end
    end.

(** ** Flattening a play (wpp.ts, [mapPlayToRow]) *)

Definition mapPlayToRow (p : Opt Raw.Play.t) : Row :=
  let game := p ?. Raw.Play.game ?? Raw.Game.empty in
  let required := p ?. Raw.Play.required ?? Raw.Required.empty in
  let pricing := p ?. Raw.Play.pricing ?? Raw.Pricing.empty in
  let prob := p ?. Raw.Play.prob ?? Raw.Prob.empty in
  let market := p ?. Raw.Play.market ?? Raw.Market.empty in
  let fair := p ?. Raw.Play.fair ?? Raw.Fair.empty in
  {| tier := p ?. Raw.Play.tier ?? "Garbage";
     side := p ?. Raw.Play.recommendation ?? "none";
     away := Val game ?. Raw.Game.away ?? "";
     home := Val game ?. Raw.Game.home ?? "";
     market_spread_home :=
       or_null (coalesce (Val market ?. Raw.Market.spread_home)
                         (Val market ?. Raw.Market.spread ?. Raw.Spread.home));
     fair_home_spread := or_null (Val fair ?. Raw.Fair.home_spread);
     required_buy_points := or_null (Val required ?. Raw.Required.buy_points);
     buy_to_line := or_null (Val required ?. Raw.Required.buy_to_line);
     p_current := or_null (Val prob ?. Raw.Prob.current);
     p_target := or_null (Val prob ?. Raw.Prob.target);
     p_buy := or_null (Val prob ?. Raw.Prob.buy);
     price_est := or_null (Val pricing ?. Raw.Pricing.final_price);
     price_max_ok := or_null (Val pricing ?. Raw.Pricing.max_acceptable_price);
     ev_ok := or_null (Val pricing ?. Raw.Pricing.ev_ok);
     reason := coalesce (p ?. Raw.Play.reason) Null |}.

(** ** The two backend calls (wpp.ts, [fetchReport] and [fetchGarbage])

    Each function is given what [await fetch(url)] produced. *)

(** [Number(res.headers.get(name) ?? 0)]. *)
Definition header_number {B : Type} (res : Http.Response B) (name : string) : float :=
  match Http.headers_get res name with
  | Some s => Number_ofString s
  | None => 0%float
  end.

Definition fetchReport (f : Http.Fetched (option Report.Data)) : Settled Report.Result :=
  match f with
  | Http.Failed m => Rejected m
  | Http.Responded res =>
      if negb (Http.ok res) then
        Rejected ("WPP /report failed: " +:+ digits (Z.of_nat (Http.status res)))
      else
        match Http.json res with
        | Http.Malformed m => Rejected m
        | Http.Parsed data =>
            Fulfilled
              {| Report.data := data;
                 Report.rate :=
                   {| Report.limit := header_number res "x-ratelimit-limit";
                      Report.remaining := header_number res "x-ratelimit-remaining" |};
                 Report.cache :=
                   {| Report.status :=
                        match Http.headers_get res "x-cache" with
                        | Some s => s
                        | None => "MISS"
                        end;
                      Report.ttl := header_number res "x-cache-ttl" |} |}
        end
  end.

Definition fetchGarbage (f : Http.Fetched (option Raw.Edges)) : Settled (list Row) :=
  match f with
  | Http.Failed m => Rejected m
  | Http.Responded res =>
      if negb (Http.ok res) then
        Rejected ("WPP /best_edges (garbage) failed: " +:+
                  digits (Z.of_nat (Http.status res)))
      else
        match Http.json res with
        | Http.Malformed m => Rejected m
        | Http.Parsed data =>
            let plays :=
              match data with
              | Some d => Raw.plays d ?? []
              | None => []
              end in
            Fulfilled (map mapPlayToRow plays)
        end
  end.

(** ** CSV export (page.tsx, [rowsToCsv]) *)

Definition headers : list string :=
  [ "tier"; "side"; "away"; "home"; "market_spread_home"; "fair_home_spread";
    "required_buy_points"; "buy_to_line"; "p_current"; "p_target"; "p_buy";
    "price_est"; "price_max_ok"; "ev_ok" ].

Definition esc (v : value) : string :=
  if is_nullish v then "" else double_quotes (String_of v).

(** One output line of the loop body. *)
Definition csv_row (r : Row) : string :=
  join "," (map (fun h => str1 dquote +:+ esc (prop r h) +:+ str1 dquote) headers).

Definition rowsToCsv (rows : list Row) : string :=
  let lines := [join "," headers] ++ map csv_row rows in
  join (str1 LF) lines.

(** ** Table sorting (page.tsx, [sortRows]) *)

(** [va] and [vb] of the comparator: the matchup text, or the property. *)
Definition sort_value (sortKey : string) (r : Row) : value :=
  if String.eqb sortKey "matchup"
  then VStr (away r +:+ " @ " +:+ home r)
  else prop r sortKey.

(** The arrow function handed to [sort]. *)
Definition comparator (sortKey : string) (sortDir : SortDir) (a b : Row) : float :=
  let dir := match sortDir with asc => 1%float | desc => (-1)%float end in
  let va := sort_value sortKey a in
  let vb := sort_value sortKey b in
  if is_nullish va then 1%float
  else if is_nullish vb then (-1)%float
  else
    match va, vb with
    | VNum x, VNum y => ((x - y) * dir)%float
    | _, _ => (localeCompare (String_of va) (String_of vb) * dir)%float
    end.

(** [Array.prototype.sort] is fixed by ECMAScript only for a consistent
    comparator; for the others the order is the engine's.  It is modelled
    by the stable insertion sort on the sign of the comparator: an element
    moves before the ones it compares negative to, and a NaN result counts
    as zero. *)
Fixpoint insert_sorted {A : Type} (cmp : A -> A -> float) (x : A) (l : list A) : list A :=
  match l with
  | [] => [x]
  | y :: l' =>
      if (cmp x y <? 0)%float then x :: y :: l'
      else y :: insert_sorted cmp x l'
  end.

Definition Array_sort {A : Type} (cmp : A -> A -> float) (l : list A) : list A :=
  fold_left (fun acc x => insert_sorted cmp x acc) l [].

(** The content of the array [sortRows] returns. *)
Definition sorted_rows (sortKey : string) (sortDir : SortDir) (rows : list Row) : list Row :=
  Array_sort (comparator sortKey sortDir) rows.

(** [[...rows]]: a new array with the same elements. *)
Definition spread_copy (h : Heap) (l : nat) : option (nat * Heap) :=
  rows ← h !! l;
  let l' := fresh (dom h) in
  Some (l', <[l' := rows]> h).

(** [arr.sort(cmp)]: sorts the array in place and returns it. *)
Definition sort_in_place (cmp : Row -> Row -> float) (h : Heap) (l : nat) : option (nat * Heap) :=
  rows ← h !! l;
  Some (l, <[l := Array_sort cmp rows]> h).

(** [sortRows(rows)], with [rows] the location of the argument. *)
Definition sortRows (sortKey : string) (sortDir : SortDir) (h : Heap) (rows : nat) : option (nat * Heap) :=
  '(copy, h') ← spread_copy h rows;
  sort_in_place (comparator sortKey sortDir) h' copy.

(** ** Refreshing (page.tsx, [doFetch]) *)

(** The synchronous part of [doFetch]. *)
Definition doFetch_start (s : State) : State :=
  {| metric := metric s;
     debouncedTarget := debouncedTarget s;
     fire := fire s;
     watch := watch s;
     garbage := garbage s;
     byTier := byTier s;
     rate := rate s;
     cache := cache s;
     err := None;
     loading := true;
     lastUpdated := lastUpdated s |}.

(** Which of the two calls settled first. *)
Inductive Order : Type := report_first | garbage_first.

(** [Promise.all] of the two calls: fulfilled when both are, rejected
    with the first rejection otherwise. *)
Definition Promise_all {A B : Type} (o : Order) (a : Settled A) (b : Settled B) : Settled (A * B) :=
  match a, b with
  | Fulfilled x, Fulfilled y => Fulfilled (x, y)
  | Rejected m, Fulfilled _ => Rejected m
  | Fulfilled _, Rejected m => Rejected m
  | Rejected m1, Rejected m2 =>
      Rejected (match o with report_first => m1 | garbage_first => m2 end)
  end.

(** The [then] callback.  Reading [data.sections] on a null body throws
    before any setter has run. *)
Definition on_fulfilled (now : Z) (res : Report.Result * list Row) (s : State) : Settled State :=
  let '(r, garbageRows) := res in
  match Report.data r with
  | None => Rejected (null_read_message "sections")
  | Some data =>
      Fulfilled
        {| metric := metric s;
           debouncedTarget := debouncedTarget s;
           fire := Report.sections data ?. Report.fire ?? [];
           watch := Report.sections data ?. Report.watch ?? [];
           garbage := garbageRows;
           byTier := Report.summary data ?. Report.by_tier ?? ∅;
           rate := Report.rate r;
           cache := Report.cache r;
           err := err s;
           loading := loading s;
           lastUpdated := Some now |}
  end.

(** The [catch] callback. *)
Definition on_rejected (message : string) (s : State) : State :=
  {| metric := metric s;
     debouncedTarget := debouncedTarget s;
     fire := fire s;
     watch := watch s;
     garbage := garbage s;
     byTier := byTier s;
     rate := rate s;
     cache := cache s;
     err := Some message;
     loading := loading s;
     lastUpdated := lastUpdated s |}.

(** The [finally] callback. *)
Definition on_finally (s : State) : State :=
  {| metric := metric s;
     debouncedTarget := debouncedTarget s;
     fire := fire s;
     watch := watch s;
     garbage := garbage s;
     byTier := byTier s;
     rate := rate s;
     cache := cache s;
     err := err s;
     loading := false;
     lastUpdated := lastUpdated s |}.

(** What the two answers of one refresh do to the state once both calls
    have settled: [then], [catch] and [finally] in turn. *)
Definition doFetch_settle (o : Order) (now : Z)
    (rep : Http.Fetched (option Report.Data))
    (gar : Http.Fetched (option Raw.Edges)) (s : State) : State :=
  let after_then :=
    match Promise_all o (fetchReport rep) (fetchGarbage gar) with
    | Fulfilled res => on_fulfilled now res s
    | Rejected m => Rejected m
    end in
  let after_catch :=
    match after_then with
    | Fulfilled s' => s'
    | Rejected m => on_rejected m s
    end in
  on_finally after_catch.

(** ** The component as a transition system

    A call of [doFetch] leaves a promise in flight; it settles in a later
    turn of the event loop.  [pending] lists the calls in flight, each with
    the parameters its requests were built from. *)

Record Model : Type := { state : State; pending : list Params }.

Definition current_params (s : State) : Params :=
  {| par_metric := metric s; par_targetProb := debouncedTarget s |}.

Definition with_metric (x : Metric) (s : State) : State :=
  {| metric := x;
     debouncedTarget := debouncedTarget s;
     fire := fire s;
     watch := watch s;
     garbage := garbage s;
     byTier := byTier s;
     rate := rate s;
     cache := cache s;
     err := err s;
     loading := loading s;
     lastUpdated := lastUpdated s |}.

Definition with_debouncedTarget (t : float) (s : State) : State :=
  {| metric := metric s;
     debouncedTarget := t;
     fire := fire s;
     watch := watch s;
     garbage := garbage s;
     byTier := byTier s;
     rate := rate s;
     cache := cache s;
     err := err s;
     loading := loading s;
     lastUpdated := lastUpdated s |}.

Inductive Event : Type :=
(** [setMetric(x)]; when the metric changes, the effect on
    [metric, debouncedTarget] refetches. *)
| SetMetric (x : Metric)
(** The debounce hook sets its cell to [t]; when the debounced target
    changes, the same effect refetches. *)
| SetDebouncedTarget (t : float)
(** The Refresh button, or a tick of the interval timer. *)
| Refresh
(** The call at position [i] of [pending] settles with these answers. *)
| Settle (i : nat) (o : Order) (now : Z)
    (rep : Http.Fetched (option Report.Data))
    (gar : Http.Fetched (option Raw.Edges)).

(** [doFetch()] under the state [s]. *)
Definition launch (s : State) (inflight : list Params) : Model :=
  {| state := doFetch_start s; pending := inflight ++ [current_params s] |}.

(** [Object.is] on two metrics. *)
Definition same_metric (x y : Metric) : bool :=
  match x, y with
  | spread, spread | ml, ml | total, total => true
  | _, _ => false
  end.

(** A state cell set to the value it holds ([Object.is], on numbers the
    equality of [PrimFloat.Leibniz.eqb]) gives no render, so the effect on
    [metric, debouncedTarget] does not run and nothing is fetched. *)
Definition step (m : Model) (e : Event) : option Model :=
  match e with
  | SetMetric x =>
      if same_metric x (metric (state m)) then Some m
      else Some (launch (with_metric x (state m)) (pending m))
  | SetDebouncedTarget t =>
      if PrimFloat.Leibniz.eqb t (debouncedTarget (state m)) then Some m
      else Some (launch (with_debouncedTarget t (state m)) (pending m))
  | Refresh => Some (launch (state m) (pending m))
  | Settle i o now rep gar =>
      _ ← pending m !! i;
      Some {| state := doFetch_settle o now rep gar (state m);
              pending := delete i (pending m) |}
  end.

Fixpoint run (m : Model) (trace : list Event) : option Model :=
  match trace with
  | [] => Some m
  | e :: rest => m' ← step m e; run m' rest
  end.

(** What the tables, the counters and the diagnostics line show. *)
Record Shown : Type := {
  shown_fire : list Row;
  shown_watch : list Row;
  shown_garbage : list Row;
  shown_byTier : gmap string float;
  shown_rate : Report.Rate;
  shown_cache : Report.Cache
}.

Definition shown (s : State) : Shown :=
  {| shown_fire := fire s;
     shown_watch := watch s;
     shown_garbage := garbage s;
     shown_byTier := byTier s;
     shown_rate := rate s;
     shown_cache := cache s |}.

End Client.

(** ** Reading CSV back

    The reader follows RFC 4180, with the line feed as the record
    separator: fields are separated by commas; a field that opens with a
    double quote runs to the next double quote that is not doubled, and a
    doubled one stands for one double quote. *)

Inductive Mode : Type :=
| RecordStart
| FieldStart
| Bare
| Quoted
| QuoteSeen.

Fixpoint csv_read_from (m : Mode) (cur : string) (fs : list string)
    (rs : list (list string)) (s : string) : list (list string) :=
  match s with
  | EmptyString =>
      match m with
      | RecordStart => rs
      | FieldStart => rs ++ [fs ++ [EmptyString]]
      | Bare | Quoted | QuoteSeen => rs ++ [fs ++ [cur]]
      end
  | String c rest =>
      match m with
      | RecordStart | FieldStart =>
          if Ascii.eqb c dquote then csv_read_from Quoted EmptyString fs rs rest
          else if Ascii.eqb c "," then
            csv_read_from FieldStart EmptyString (fs ++ [EmptyString]) rs rest
          else if Ascii.eqb c LF then
            csv_read_from RecordStart EmptyString [] (rs ++ [fs ++ [EmptyString]]) rest
          else csv_read_from Bare (str1 c) fs rs rest
      | Bare =>
          if Ascii.eqb c "," then
            csv_read_from FieldStart EmptyString (fs ++ [cur]) rs rest
          else if Ascii.eqb c LF then
            csv_read_from RecordStart EmptyString [] (rs ++ [fs ++ [cur]]) rest
          else csv_read_from Bare (cur +:+ str1 c) fs rs rest
      | Quoted =>
          if Ascii.eqb c dquote then csv_read_from QuoteSeen cur fs rs rest
          else csv_read_from Quoted (cur +:+ str1 c) fs rs rest
      | QuoteSeen =>
          if Ascii.eqb c dquote then
            csv_read_from Quoted (cur +:+ str1 dquote) fs rs rest
          else if Ascii.eqb c "," then
            csv_read_from FieldStart EmptyString (fs ++ [cur]) rs rest
          else if Ascii.eqb c LF then
            csv_read_from RecordStart EmptyString [] (rs ++ [fs ++ [cur]]) rest
          else csv_read_from Bare (cur +:+ str1 c) fs rs rest
      end
  end.

Definition csv_read (s : string) : list (list string) :=
  csv_read_from RecordStart EmptyString [] [] s.

(** The text before the first line feed. *)
Fixpoint first_line (s : string) : string :=
  match s with
  | EmptyString => EmptyString
  | String c rest => if Ascii.eqb c LF then EmptyString else String c (first_line rest)
  end.

(** [s.split(",")]. *)
Fixpoint split_commas (s : string) : list string :=
  match s with
  | EmptyString => [EmptyString]
  | String c rest =>
      if Ascii.eqb c "," then EmptyString :: split_commas rest
      else
        match split_commas rest with
        | [] => [str1 c]
        | x :: xs => String c x :: xs
        end
  end.

(** The column names on the first line of a CSV text. *)
Definition header_columns (csv : string) : list string :=
  split_commas (first_line csv).

(** ** An engine for closed examples

    Numbers print as their nearest integer, strings compare by code
    units, and a header parses as an unsigned decimal. *)

Definition plain_number (x : float) : string :=
  match Prim2SF x with
  | S754_nan => "NaN"
  | S754_infinity false => "Infinity"
  | S754_infinity true => "-Infinity"
  | S754_zero _ => "0"
  | S754_finite neg m e =>
      (if neg then "-" else "") +:+ digits (nearest_scaled (Z.pos m) e 0)
  end.

Definition plain_parse (s : string) : float :=
  match NilZero.uint_of_string s with
  | Some u => PrimFloat.of_uint63 (Uint63.of_Z (Z.of_N (N.of_uint u)))
  | None => nan
  end.

Definition ordinal_compare (a b : string) : float :=
  match String.compare a b with
  | Lt => (-1)%float
  | Eq => 0%float
  | Gt => 1%float
  end.

Definition plain_engine : Engine :=
  {| Number_toString := plain_number;
     Number_ofString := plain_parse;
     localeCompare := ordinal_compare;
     null_read_message :=
       fun k => "Cannot read properties of null (reading '" +:+ k +:+ "')" |}.

(** The play of the worked example:
    tier Fire, recommendation home, game A at B, prob 0.7 against 0.65. *)
Definition example_play : Raw.Play.t :=
  {| Raw.Play.tier := Val "Fire";
     Raw.Play.recommendation := Val "home";
     Raw.Play.game := Val {| Raw.Game.away := Val "A"; Raw.Game.home := Val "B" |};
     Raw.Play.market := Undefined;
     Raw.Play.fair := Undefined;
     Raw.Play.required := Undefined;
     Raw.Play.prob :=
       Val {| Raw.Prob.current := Val 0.7%float;
              Raw.Prob.target := Val 0.65%float;
              Raw.Prob.buy := Undefined |};
     Raw.Play.pricing := Undefined;
     Raw.Play.reason := Undefined |}.

(** The columns the export is said to have: every one but the tier. *)
Definition columns_without_tier : list string :=
  [ "side"; "away"; "home"; "market_spread_home"; "fair_home_spread";
    "required_buy_points"; "buy_to_line"; "p_current"; "p_target"; "p_buy";
    "price_est"; "price_max_ok"; "ev_ok" ].

(** The names of the properties of a row. *)
Definition row_keys : list string :=
  [ "tier"; "side"; "away"; "home"; "market_spread_home"; "fair_home_spread";
    "required_buy_points"; "buy_to_line"; "p_current"; "p_target"; "p_buy";
    "price_est"; "price_max_ok"; "ev_ok"; "reason" ].

(** Two rows for closed examples: one with no buy probability, one with. *)
Definition row_unknown_buy : Row :=
  {| tier := "Garbage"; side := "home"; away := "A"; home := "B";
     market_spread_home := None; fair_home_spread := None;
     required_buy_points := None; buy_to_line := None;
     p_current := None; p_target := None; p_buy := None;
     price_est := None; price_max_ok := None; ev_ok := None;
     reason := Val "" |}.

Definition row_known_buy : Row :=
  {| tier := "Watch"; side := "away"; away := "C"; home := "D";
     market_spread_home := None; fair_home_spread := None;
     required_buy_points := Some 1%float; buy_to_line := Some 3%float;
     p_current := None; p_target := Some 0.65%float; p_buy := Some 0.7%float;
     price_est := None; price_max_ok := None; ev_ok := None;
     reason := Null |}.

(** The text of a field as a reader should get it back: empty for null
    and undefined, the string conversion otherwise. *)
Definition field_text {engine : Engine} (v : value) : string :=
  if is_nullish v then "" else String_of v.

(** A field between double quotes, its own double quotes doubled. *)
Definition quoted (s : string) : string :=
  str1 dquote +:+ double_quotes s +:+ str1 dquote.

(** What a settled refresh puts on display: the rows and diagnostics of
    its two answers when both calls are fulfilled and the report body is
    not null, and nothing otherwise. *)
Definition settled_result {engine : Engine}
    (rep : Http.Fetched (option Report.Data))
    (gar : Http.Fetched (option Raw.Edges)) : option Shown :=
  match fetchReport rep, fetchGarbage gar with
  | Fulfilled r, Fulfilled garbageRows =>
      match Report.data r with
      | Some data =>
          Some {| shown_fire := Report.sections data ?. Report.fire ?? [];
                  shown_watch := Report.sections data ?. Report.watch ?? [];
                  shown_garbage := garbageRows;
                  shown_byTier := Report.summary data ?. Report.by_tier ?? ∅;
                  shown_rate := Report.rate r;
                  shown_cache := Report.cache r |}
      | None => None
      end
  | _, _ => None
  end.

(** The display after a trace under last-response-wins: each refresh that
    settles with a result replaces what the one before it left. *)
Definition last_settled {engine : Engine} (trace : list Event) (d : Shown) : Shown :=
  fold_left
    (fun d e =>
       match e with
       | Settle _ _ _ rep gar => default d (settled_result rep gar)
       | _ => d
       end)
    trace d.

(** Under last-request-wins a refresh launched under parameters that are
    no longer the current ones would leave the display alone when it
    settles. *)
Definition stale_settle_is_dropped {engine : Engine} (m : Model) (i : nat)
    (o : Order) (now : Z)
    (rep : Http.Fetched (option Report.Data))
    (gar : Http.Fetched (option Raw.Edges)) : Prop :=
  forall p m',
    pending m !! i = Some p ->
    par_targetProb p <> debouncedTarget (state m) \/ par_metric p <> metric (state m) ->
    step m (Settle i o now rep gar) = Some m' ->
    shown (state m') = shown (state m).

(** A /report answer with status 200, no diagnostic header and the given
    Fire rows; a /best_edges answer with status 200 and no play. *)
Definition report_with (rows : list Row) : Http.Fetched (option Report.Data) :=
  Http.Responded
    {| Http.status := 200;
       Http.headers_get := fun _ => None;
       Http.json :=
         Http.Parsed
           (Some {| Report.sections :=
                      Val {| Report.fire := Val rows; Report.watch := Undefined |};
                    Report.summary := Undefined |}) |}.

Definition no_edges_response : Http.Response (option Raw.Edges) :=
  {| Http.status := 200;
     Http.headers_get := fun _ => None;
     Http.json := Http.Parsed (Some {| Raw.plays := Val [] |}) |}.

Definition no_edges : Http.Fetched (option Raw.Edges) :=
  Http.Responded no_edges_response.

(** [s.includes(sub)]. *)
Fixpoint includes (s sub : string) : bool :=
  String.prefix sub s ||
  match s with
  | EmptyString => false
  | String _ rest => includes rest sub
  end.

(** The error on display names an endpoint that answered with a status
    outside 200 to 299, and that status. *)
Definition names_failed_call (message : string)
    (r1 : Http.Response (option Report.Data))
    (r2 : Http.Response (option Raw.Edges)) : Prop :=
  (Http.ok r1 = false /\
   includes message "/report" = true /\
   includes message (digits (Z.of_nat (Http.status r1))) = true) \/
  (Http.ok r2 = false /\
   includes message "/best_edges" = true /\
   includes message (digits (Z.of_nat (Http.status r2))) = true).

(** A /report answer with status 200 whose body is not JSON. *)
Definition report_not_json : Http.Response (option Report.Data) :=
  {| Http.status := 200;
     Http.headers_get := fun _ => None;
     Http.json := Http.Malformed "Unexpected token < in JSON at position 0" |}.

(** An answer with the given status and the JSON text null as its body. *)
Definition answer_status {B : Type} (code : nat) : Http.Response (option B) :=
  {| Http.status := code;
     Http.headers_get := fun _ => None;
     Http.json := Http.Parsed None |}.

(** The component once mounted, before its first refresh. *)
Definition mounted : Model := {| state := initial; pending := [] |}.

(** The target moves to 0.60 and then to 0.70; the refresh for 0.70, in
    flight at position 1, settles first. *)
Definition newer_settles_first : list Event :=
  [ SetDebouncedTarget 0.6%float;
    SetDebouncedTarget 0.7%float;
    Settle 1 report_first 1000 (report_with [row_known_buy]) no_edges ].

(** A Garbage row that carries the reason of the backend. *)
Definition row_with_reason : Row :=
  {| tier := "Garbage"; side := "none"; away := "E"; home := "F";
     market_spread_home := None; fair_home_spread := None;
     required_buy_points := None; buy_to_line := None;
     p_current := None; p_target := None; p_buy := None;
     price_est := None; price_max_ok := None; ev_ok := None;
     reason := Val "non-key buy" |}.

(** ** Reading the values of an export back

    The texts of the fields of a row, written out: a string is its own
    text, a boolean is true or false, a number is what the engine prints,
    and null is the empty text. *)
Definition number_text {engine : Engine} (o : option float) : string :=
  match o with
  | Some x => Number_toString x
  | None => ""
  end.

Definition bool_text (o : option bool) : string :=
  match o with
  | Some true => "true"
  | Some false => "false"
  | None => ""
  end.

Definition row_texts {engine : Engine} (r : Row) : list string :=
  [ tier r; side r; away r; home r;
    number_text (market_spread_home r); number_text (fair_home_spread r);
    number_text (required_buy_points r); number_text (buy_to_line r);
    number_text (p_current r); number_text (p_target r); number_text (p_buy r);
    number_text (price_est r); number_text (price_max_ok r);
    bool_text (ev_ok r) ].

(** What a consumer of the file does with a record: an empty text in a
    nullable column is null, the text of a number goes through
    [Number], and the text of a boolean is one of its two names. *)
Definition read_number {engine : Engine} (s : string) : option float :=
  if String.eqb s "" then None else Some (Number_ofString s).

Definition read_bool (s : string) : option (option bool) :=
  if String.eqb s "" then Some None
  else if String.eqb s "true" then Some (Some true)
  else if String.eqb s "false" then Some (Some false)
  else None.

Definition read_row {engine : Engine} (fields : list string) : option Row :=
  match fields with
  | [t; sd; aw; hm; msh; fhs; rbp; btl; pc; pt; pb; pe; pm; ev] =>
      b ← read_bool ev;
      Some {| tier := t; side := sd; away := aw; home := hm;
              market_spread_home := read_number msh;
              fair_home_spread := read_number fhs;
              required_buy_points := read_number rbp;
              buy_to_line := read_number btl;
              p_current := read_number pc;
              p_target := read_number pt;
              p_buy := read_number pb;
              price_est := read_number pe;
              price_max_ok := read_number pm;
              ev_ok := b;
              reason := Undefined |}
  | _ => None
  end.

(** SameValueZero of ECMAScript: the same number, the two zeros being
    one. *)
Definition SameValueZero (x y : float) : Prop :=
  x = y \/ (x =? y)%float = true.

Definition recovered_number (original read : option float) : Prop :=
  match original, read with
  | None, None => True
  | Some x, Some y => SameValueZero y x
  | _, _ => False
  end.

(** The row read has the values of the exported columns of the original. *)
Definition recovered (original read : Row) : Prop :=
  tier read = tier original /\ side read = side original /\
  away read = away original /\ home read = home original /\
  recovered_number (market_spread_home original) (market_spread_home read) /\
  recovered_number (fair_home_spread original) (fair_home_spread read) /\
  recovered_number (required_buy_points original) (required_buy_points read) /\
  recovered_number (buy_to_line original) (buy_to_line read) /\
  recovered_number (p_current original) (p_current read) /\
  recovered_number (p_target original) (p_target read) /\
  recovered_number (p_buy original) (p_buy read) /\
  recovered_number (price_est original) (price_est read) /\
  recovered_number (price_max_ok original) (price_max_ok read) /\
  ev_ok read = ev_ok original.

(** What ECMAScript promises of the conversions between numbers and
    strings: the text of a number is not empty, and converted back it is
    the number (a negative zero coming back as zero). *)
Definition prints_numbers_faithfully (engine : Engine) : Prop :=
  (forall x, Number_toString x <> "") /\
  (forall x, SameValueZero (Number_ofString (Number_toString x)) x).

(** ** An engine that prints numbers exactly

    A finite number that is not zero prints as its signed integer
    significand, the letter p and its binary exponent, both in decimal,
    and parses back from that. *)

Definition exact_number (x : float) : string :=
  match Prim2SF x with
  | S754_nan => "NaN"
  | S754_infinity false => "Infinity"
  | S754_infinity true => "-Infinity"
  | S754_zero _ => "0"
  | S754_finite neg m e =>
      NilEmpty.string_of_int (Z.to_int (if neg then Z.neg m else Z.pos m)) +:+
      String "p" (NilEmpty.string_of_int (Z.to_int e))
  end.

(** The text before the first [c] and the text after it. *)
Fixpoint split_at (c : ascii) (s : string) : option (string * string) :=
  match s with
  | EmptyString => None
  | String a rest =>
      if Ascii.eqb a c then Some (EmptyString, rest)
      else
        match split_at c rest with
        | Some (l, r) => Some (String a l, r)
        | None => None
        end
  end.

Definition exact_parse (s : string) : float :=
  match split_at "p" s with
  | Some (a, b) =>
      match NilEmpty.int_of_string a, NilEmpty.int_of_string b with
      | Some ia, Some ib =>
          match Z.of_int ia with
          | Z.pos m => SF2Prim (S754_finite false m (Z.of_int ib))
          | Z.neg m => SF2Prim (S754_finite true m (Z.of_int ib))
          | Z0 => nan
          end
      | _, _ => nan
      end
  | None =>
      if String.eqb s "Infinity" then infinity
      else if String.eqb s "-Infinity" then neg_infinity
      else if String.eqb s "0" then 0%float
      else nan
  end.

(** Whether the letter p occurs in a text. *)
Fixpoint has_p (s : string) : bool :=
  match s with
  | EmptyString => false
  | String a rest => Ascii.eqb a "p" || has_p rest
  end.

Definition exact_engine : Engine :=
  {| Number_toString := exact_number;
     Number_ofString := exact_parse;
     localeCompare := ordinal_compare;
     null_read_message :=
       fun k => "Cannot read properties of null (reading '" +:+ k +:+ "')" |}.

(** ** The rest of the page (page.tsx) *)

(** *** What [Home] renders (lines 127-128)

    A message that is not empty hides everything else; otherwise the
    loading flag does; otherwise the controls and the tables show. *)
Inductive View : Type :=
| ErrorView (message : string)
| LoadingView
| PageView.

Definition view (s : State) : View :=
  match err s with
  | Some (String c m) => ErrorView (String c m)
  | _ => if loading s then LoadingView else PageView
  end.

(** *** Clicking a column header (lines 173-176) *)

Record Sorting : Type := { sortKey : string; sortDir : SortDir }.

(** The initial values of the two sorting cells. *)
Definition initial_sorting : Sorting :=
  {| sortKey := "required_buy_points"; sortDir := asc |}.

Definition flip (d : SortDir) : SortDir :=
  match d with
  | asc => desc
  | desc => asc
  end.

(** The [onClick] of the header with key [h]. *)
Definition click_header (h : string) (s : Sorting) : Sorting :=
  if String.eqb (sortKey s) h
  then {| sortKey := sortKey s; sortDir := flip (sortDir s) |}
  else {| sortKey := h; sortDir := asc |}.

(** *** Exporting a table ([exportCsv], lines 210-219) *)

Inductive Which : Type := which_fire | which_watch | which_garbage.

Definition Which_text (w : Which) : string :=
  match w with
  | which_fire => "fire"
  | which_watch => "watch"
  | which_garbage => "garbage"
  end.

Definition Metric_text (x : Metric) : string :=
  match x with
  | spread => "spread"
  | ml => "ml"
  | total => "total"
  end.

(** The file handed to the browser: its name and its text.  [target] is
    the slider value, not the debounced one. *)
Record Download : Type := { download : string; blob : string }.

Definition exportCsv {engine : Engine} (target : float) (s : State) (which : Which) : Download :=
  let rows :=
    match which with
    | which_fire => fire s
    | which_watch => watch s
    | which_garbage => garbage s
    end in
  {| download :=
       "wpp-" +:+ Which_text which +:+ "-" +:+ Metric_text (metric s) +:+ "-p" +:+
       toFixed target 2 +:+ ".csv";
     blob := rowsToCsv rows |}.

(** *** Debouncing ([useDebounced], lines 23-27)

    [timeouts] are the timeouts of the hook the browser has not fired or
    cleared yet, each with the value its callback closed over and its
    delay; handles are positive integers, [next] the one [setTimeout]
    gives out next.  [cleanup] is the handle the cleanup of the last run
    of the effect closed over. *)
Module Debounce.

Record t (T : Type) : Type := {
  v : T;
  timeouts : gmap positive (T * float);
  next : positive;
  cleanup : option positive
}.

Arguments v {T} _.
Arguments timeouts {T} _.
Arguments next {T} _.
Arguments cleanup {T} _.

(** [clearTimeout(id)]: nothing happens when the handle is not armed. *)
Definition clearTimeout {T : Type} (id : positive) (s : t T) : t T :=
  {| v := v s; timeouts := delete id (timeouts s); next := next s;
     cleanup := cleanup s |}.

(** The body of the effect: [const t = setTimeout(() => setV(val), ms)],
    and the cleanup it returns. *)
Definition effect {T : Type} (val : T) (ms : float) (s : t T) : t T :=
  let id := next s in
  {| v := v s;
     timeouts := <[id := (val, ms)]> (timeouts s);
     next := Pos.succ id;
     cleanup := Some id |}.

(** The cleanup of the last run of the effect: [clearTimeout(t)]. *)
Definition run_cleanup {T : Type} (s : t T) : t T :=
  match cleanup s with
  | Some id => clearTimeout id s
  | None => s
  end.

(** The first render: [useState(val)], then the effect. *)
Definition mount {T : Type} (val : T) (ms : float) : t T :=
  effect val ms {| v := val; timeouts := ∅; next := 1%positive; cleanup := None |}.

(** A render in which [val] or [ms] has changed: the cleanup of the last
    run, then the effect. *)
Definition change {T : Type} (s : t T) (dep : T * float) : t T :=
  effect (fst dep) (snd dep) (run_cleanup s).

(** The timeout with handle [id] fires: [setV(val)] with the value it
    closed over.  The dependencies of the effect are what they were, so
    the effect does not run.  A handle that is not armed does not fire. *)
Definition fire {T : Type} (id : positive) (s : t T) : option (t T) :=
  match timeouts s !! id with
  | Some (val, _) =>
      Some {| v := val; timeouts := delete id (timeouts s); next := next s;
              cleanup := cleanup s |}
  | None => None
  end.

Inductive event (T : Type) : Type :=
| Change (val : T) (ms : float)
| Fire (id : positive).

Arguments Change {T} _ _.
Arguments Fire {T} _.

Definition step {T : Type} (s : t T) (e : event T) : option (t T) :=
  match e with
  | Change val ms => Some (change s (val, ms))
  | Fire id => fire id s
  end.

Fixpoint run {T : Type} (s : t T) (trace : list (event T)) : option (t T) :=
  match trace with
  | [] => Some s
  | e :: rest => s' ← step s e; run s' rest
  end.

(** No timeout is armed, or one, and then it is the one the cleanup will
    clear. *)
Definition at_most_one {T : Type} (s : t T) : Prop :=
  timeouts s = ∅ \/
  exists id d, cleanup s = Some id /\ timeouts s = {[ id := d ]}.

End Debounce.

(** *** The auto-refresh timer (the effect of lines 120-125)

    [intervals] are the intervals of the component the browser still
    runs, each with its delay; handles are positive integers, [next] the
    one [setInterval] gives out next.  [cleanup] tells whether the last
    run of the effect returned a cleanup. *)
Module AutoRefresh.

Record t : Type := {
  intervals : gmap positive float;
  next : positive;
  timerRef : option positive;
  cleanup : bool
}.

(** [Math.max(a, b)]. *)
Definition Math_max (a b : float) : float :=
  if PrimFloat.is_nan a || PrimFloat.is_nan b then nan
  else if (a <? b)%float then b
  else if (b <? a)%float then a
  else match PrimFloat.classify a with
       | NZero => b
       | _ => a
       end.

(** [if (timerRef.current) window.clearInterval(timerRef.current)]. *)
Definition clear_current (s : t) : t :=
  match timerRef s with
  | Some id =>
      {| intervals := delete id (intervals s); next := next s;
         timerRef := timerRef s; cleanup := cleanup s |}
  | None => s
  end.

(** The body of the effect. *)
Definition effect (autoRefresh : bool) (refreshSecs : float) (s : t) : t :=
  if negb autoRefresh then
    let s1 := clear_current s in
    {| intervals := intervals s1; next := next s1;
       timerRef := None; cleanup := false |}
  else
    let s1 := clear_current s in
    let id := next s1 in
    {| intervals := <[id := (Math_max 5 refreshSecs * 1000)%float]> (intervals s1);
       next := Pos.succ id;
       timerRef := Some id;
       cleanup := true |}.

(** A dependency changed: the cleanup of the last run, then the effect. *)
Definition rerun (s : t) (deps : bool * float) : t :=
  effect (fst deps) (snd deps) (if cleanup s then clear_current s else s).

(** The component goes away: the cleanup of the last run. *)
Definition unmount (s : t) : t :=
  if cleanup s then clear_current s else s.

(** Before the first run of the effect. *)
Definition start : t :=
  {| intervals := ∅; next := 1%positive; timerRef := None; cleanup := false |}.

(** No interval runs, or one, and then it is the one in [timerRef]. *)
Definition at_most_current (s : t) : Prop :=
  intervals s = ∅ \/
  exists id delay, timerRef s = Some id /\ intervals s = {[ id := delay ]}.

End AutoRefresh.

(** ** Notions used in the further properties *)

(** The row with another reason. *)
Definition with_reason (x : Opt string) (r : Row) : Row :=
  {| tier := tier r; side := side r; away := away r; home := home r;
     market_spread_home := market_spread_home r;
     fair_home_spread := fair_home_spread r;
     required_buy_points := required_buy_points r;
     buy_to_line := buy_to_line r;
     p_current := p_current r; p_target := p_target r; p_buy := p_buy r;
     price_est := price_est r; price_max_ok := price_max_ok r;
     ev_ok := ev_ok r;
     reason := x |}.

(** A property without its null: null becomes missing. *)
Definition no_null {A : Type} (o : Opt A) : Opt A :=
  match o with
  | Val a => Val a
  | _ => Undefined
  end.

(** A nested object made present: the empty object when missing or null. *)
Definition present {A : Type} (empty : A) (clean : A -> A) (o : Opt A) : Opt A :=
  match o with
  | Val a => Val (clean a)
  | _ => Val empty
  end.

(** The play with every null removed and every nested object present. *)
Definition clean_play (p : Opt Raw.Play.t) : Raw.Play.t :=
  match p with
  | Val q =>
      {| Raw.Play.tier := no_null (Raw.Play.tier q);
         Raw.Play.recommendation := no_null (Raw.Play.recommendation q);
         Raw.Play.game :=
           present Raw.Game.empty
             (fun g => {| Raw.Game.away := no_null (Raw.Game.away g);
                          Raw.Game.home := no_null (Raw.Game.home g) |})
             (Raw.Play.game q);
         Raw.Play.market :=
           present Raw.Market.empty
             (fun m => {| Raw.Market.spread_home := no_null (Raw.Market.spread_home m);
                          Raw.Market.spread :=
                            present {| Raw.Spread.home := Undefined |}
                              (fun sp => {| Raw.Spread.home := no_null (Raw.Spread.home sp) |})
                              (Raw.Market.spread m) |})
             (Raw.Play.market q);
         Raw.Play.fair :=
           present Raw.Fair.empty
             (fun f => {| Raw.Fair.home_spread := no_null (Raw.Fair.home_spread f) |})
             (Raw.Play.fair q);
         Raw.Play.required :=
           present Raw.Required.empty
             (fun r => {| Raw.Required.buy_points := no_null (Raw.Required.buy_points r);
                          Raw.Required.buy_to_line := no_null (Raw.Required.buy_to_line r) |})
             (Raw.Play.required q);
         Raw.Play.prob :=
           present Raw.Prob.empty
             (fun b => {| Raw.Prob.current := no_null (Raw.Prob.current b);
                          Raw.Prob.target := no_null (Raw.Prob.target b);
                          Raw.Prob.buy := no_null (Raw.Prob.buy b) |})
             (Raw.Play.prob q);
         Raw.Play.pricing :=
           present Raw.Pricing.empty
             (fun c => {| Raw.Pricing.final_price := no_null (Raw.Pricing.final_price c);
                          Raw.Pricing.max_acceptable_price :=
                            no_null (Raw.Pricing.max_acceptable_price c);
                          Raw.Pricing.ev_ok := no_null (Raw.Pricing.ev_ok c) |})
             (Raw.Play.pricing q);
         Raw.Play.reason := no_null (Raw.Play.reason q) |}
  | _ => Raw.Play.empty
  end.

(** An event other than a settlement. *)
Definition is_launch (e : Event) : bool :=
  match e with
  | Settle _ _ _ _ _ => false
  | _ => true
  end.

(** The event starts a refresh in the state [s]: the button, a tick, or a
    parameter that changes. *)
Definition starts_refresh (s : State) (e : Event) : bool :=
  match e with
  | SetMetric x => negb (same_metric x (metric s))
  | SetDebouncedTarget t => negb (PrimFloat.Leibniz.eqb t (debouncedTarget s))
  | Refresh => true
  | Settle _ _ _ _ _ => false
  end.

(** The metric and the debounced target after a trace, read off the
    parameter events alone. *)
Definition last_metric (trace : list Event) (x : Metric) : Metric :=
  fold_left (fun x e => match e with SetMetric y => y | _ => x end) trace x.

Definition last_debouncedTarget (trace : list Event) (t : float) : float :=
  fold_left (fun t e => match e with SetDebouncedTarget u => u | _ => t end) trace t.

(** A /report answer with status 200 whose body is the JSON text null. *)
Definition report_null : Http.Fetched (option Report.Data) :=
  Http.Responded (answer_status 200).

(** A play for closed examples: no tier, a reason. *)
Definition play_with_reason : Raw.Play.t :=
  {| Raw.Play.tier := Null;
     Raw.Play.recommendation := Undefined;
     Raw.Play.game := Null;
     Raw.Play.market := Undefined;
     Raw.Play.fair := Undefined;
     Raw.Play.required := Undefined;
     Raw.Play.prob := Undefined;
     Raw.Play.pricing := Undefined;
     Raw.Play.reason := Val "price above cap" |}.

(** A state with rows on display and the message of an earlier failure. *)
Definition failed_state : State :=
  {| metric := ml;
     debouncedTarget := 0.6%float;
     fire := [row_known_buy];
     watch := [];
     garbage := [row_with_reason];
     byTier := ∅;
     rate := {| Report.limit := 0%float; Report.remaining := 0%float |};
     cache := {| Report.status := "MISS"; Report.ttl := 0%float |};
     err := Some "WPP /report failed: 500";
     loading := false;
     lastUpdated := Some 500%Z |}.

(** ** Notions used in the statements and proofs *)

(** A list in which nothing follows an element that satisfies [last]
    except elements that satisfy it too. *)
Fixpoint ends_with {A : Type} (last : A -> bool) (l : list A) : Prop :=
  match l with
  | [] => True
  | x :: l' => (last x = true -> Forall (fun y => last y = true) l') /\ ends_with last l'
  end.

(** The reader is about to read the first character of a field. *)
Definition at_start (m : Mode) : Prop := m = RecordStart \/ m = FieldStart.

(** What may follow a line: nothing, or a line feed and more text. *)
Definition after_line (fs : list string) (rs : list (list string)) (rest : string) :
    list (list string) :=
  match rest with
  | EmptyString => rs ++ [fs]
  | String _ more => csv_read_from RecordStart "" [] (rs ++ [fs]) more
  end.

Definition line_end (rest : string) : Prop :=
  rest = "" \/ exists more, rest = String LF more.

(** The texts of the fields of a row, in header order. *)
Definition row_fields {engine : Engine} (r : Row) : list string :=
  map (fun h => field_text (prop r h)) headers.

(** The status of an answer outside 200 to 299, when there is one. *)
Definition failed_status {B : Type} (f : Http.Fetched B) : option nat :=
  match f with
  | Http.Responded res => if Http.ok res then None else Some (Http.status res)
  | Http.Failed _ => None
  end.

(** The message of the call that was rejected first, read off the order
    in which the two calls settled: that of the call that settled first
    when it was rejected, and otherwise that of the other one. *)
Definition first_rejection {A B : Type} (o : Order) (a : Settled A) (b : Settled B) :
    option string :=
  let of_a := match a with Rejected m => Some m | Fulfilled _ => None end in
  let of_b := match b with Rejected m => Some m | Fulfilled _ => None end in
  match o with
  | report_first => match of_a with Some m => Some m | None => of_b end
  | garbage_first => match of_b with Some m => Some m | None => of_a end
  end.

(** The body of the answer parses. *)
Definition well_formed {B : Type} (res : Http.Response B) : Prop :=
  forall m, Http.json res <> Http.Malformed m.

(** * Properties *)

Section Properties.

Context {engine : Engine}.

(** ** Flattening *)

(** C8.  The worked example: the play with tier Fire, recommendation home,
    game A at B and probabilities 0.7 and 0.65 flattens to a row with
    [p_current = 0.7] and [p_target = 0.65] and no price, and its tooltip
    is the Fire sentence with 70.0% and 65.0% and no EV clause. *)
Theorem example_play_explained :
  let r := mapPlayToRow (Val example_play) in
  p_current r = Some 0.7%float /\
  p_target r = Some 0.65%float /\
  price_est r = None /\
  price_max_ok r = None /\
  explain r = "Fire because p(now) 70.0% ≥ p(target) 65.0% (no/cheap buys).".
Proof.
  repeat split; vm_compute; reflexivity.
Qed.

(** C3, as amended.  Each numeric field, [ev_ok] and [reason] of the row
    is the value found under its path in the play, and null when the path
    is missing or null; the market spread is [market.spread_home] when
    that is present and [market.spread.home] otherwise; the tier defaults
    to Garbage, the side to none, and the two team names to the empty
    string.  The empty play gives exactly these defaults. *)
Theorem mapPlayToRow_paths (p : Opt Raw.Play.t) :
  let r := mapPlayToRow p in
  tier r = p ?. Raw.Play.tier ?? "Garbage" /\
  side r = p ?. Raw.Play.recommendation ?? "none" /\
  away r = p ?. Raw.Play.game ?. Raw.Game.away ?? "" /\
  home r = p ?. Raw.Play.game ?. Raw.Game.home ?? "" /\
  market_spread_home r =
    match p ?. Raw.Play.market ?. Raw.Market.spread_home with
    | Val x => Some x
    | _ => or_null (p ?. Raw.Play.market ?. Raw.Market.spread ?. Raw.Spread.home)
    end /\
  fair_home_spread r = or_null (p ?. Raw.Play.fair ?. Raw.Fair.home_spread) /\
  required_buy_points r = or_null (p ?. Raw.Play.required ?. Raw.Required.buy_points) /\
  buy_to_line r = or_null (p ?. Raw.Play.required ?. Raw.Required.buy_to_line) /\
  p_current r = or_null (p ?. Raw.Play.prob ?. Raw.Prob.current) /\
  p_target r = or_null (p ?. Raw.Play.prob ?. Raw.Prob.target) /\
  p_buy r = or_null (p ?. Raw.Play.prob ?. Raw.Prob.buy) /\
  price_est r = or_null (p ?. Raw.Play.pricing ?. Raw.Pricing.final_price) /\
  price_max_ok r = or_null (p ?. Raw.Play.pricing ?. Raw.Pricing.max_acceptable_price) /\
  ev_ok r = or_null (p ?. Raw.Play.pricing ?. Raw.Pricing.ev_ok) /\
  prop r "reason" = of_nullable VStr (or_null (p ?. Raw.Play.reason)) /\
  mapPlayToRow (Val Raw.Play.empty) =
    {| tier := "Garbage"; side := "none"; away := ""; home := "";
       market_spread_home := None; fair_home_spread := None;
       required_buy_points := None; buy_to_line := None;
       p_current := None; p_target := None; p_buy := None;
       price_est := None; price_max_ok := None; ev_ok := None;
       reason := Null |}.
Proof.
  destruct p as [| |[t rec g mk fr rq pb pr rs]]; cbn;
    repeat split; try reflexivity.
  - destruct g; reflexivity.
  - destruct g; reflexivity.
  - destruct mk as [| |[sh sp]]; try reflexivity; cbn.
    destruct sh; reflexivity.
  - destruct fr; reflexivity.
  - destruct rq; reflexivity.
  - destruct rq; reflexivity.
  - destruct pb; reflexivity.
  - destruct pb; reflexivity.
  - destruct pb; reflexivity.
  - destruct pr; reflexivity.
  - destruct pr; reflexivity.
  - destruct pr; reflexivity.
  - destruct rs; reflexivity.
Qed.

(** ** Tooltip text *)

(** C4.  The tooltip is never empty; and for a Garbage row whose reason is
    set, that is, a string that is not empty (the test of the code, and
    the reading under which the first half leaves room for the second),
    the tooltip is exactly that reason.  An empty reason counts as none:
    the row gets the tooltip it has without a reason. *)
Theorem explain_nonempty_and_reason (r : Row) :
  explain r <> "" /\
  (forall c s, tier r = "Garbage" -> reason r = Val (String c s) ->
     explain r = String c s) /\
  (reason r = Val "" -> explain r = explain (with_reason Undefined r)).
Proof.
  split; [| split].
  - unfold explain.
    destruct (String.eqb (tier r) "Fire"); [discriminate |].
    destruct (String.eqb (tier r) "Watch"); [discriminate |].
    destruct (reason r) as [| |[|c s]]; cbn;
      try discriminate;
      destruct (p_buy r), (p_target r); try discriminate;
      match goal with |- context [PrimFloat.ltb ?x ?y] => destruct (PrimFloat.ltb x y) end;
      discriminate.
  - intros c s Ht Hr. unfold explain. rewrite Ht, Hr. reflexivity.
  - intros Hr. unfold explain. cbn [tier reason with_reason p_current p_buy p_target
      required_buy_points ev_ok price_est price_max_ok buy_to_line].
    rewrite Hr. reflexivity.
Qed.

(** ** Sorting *)

(** C10.  When the values of both rows under the sort key are null or
    undefined, the comparator answers 1 in both argument orders, whatever
    the key and the direction. *)
Theorem comparator_both_nullish (sortKey : string) (sortDir : SortDir) (a b : Row) :
  is_nullish (sort_value sortKey a) = true ->
  is_nullish (sort_value sortKey b) = true ->
  comparator sortKey sortDir a b = 1%float /\
  comparator sortKey sortDir b a = 1%float.
Proof.
  intros Ha Hb. unfold comparator. rewrite Ha, Hb. split; reflexivity.
Qed.

(** *** The insertion sort *)

Lemma insert_sorted_perm {A : Type} (cmp : A -> A -> float) (x : A) (l : list A) :
  Permutation (x :: l) (insert_sorted cmp x l).
Proof.
  induction l as [|y l IH]; cbn; [reflexivity |].
  destruct (cmp x y <? 0)%float; [reflexivity |].
  rewrite perm_swap. apply perm_skip, IH.
Qed.

Lemma fold_insert_perm {A : Type} (cmp : A -> A -> float) (l acc : list A) :
  Permutation (acc ++ l) (fold_left (fun acc x => insert_sorted cmp x acc) l acc).
Proof.
  revert acc. induction l as [|x l IH]; intros acc; cbn.
  - rewrite app_nil_r. reflexivity.
  - rewrite <- IH, <- insert_sorted_perm.
    symmetry. apply Permutation_middle.
Qed.

Lemma Array_sort_perm {A : Type} (cmp : A -> A -> float) (l : list A) :
  Permutation l (Array_sort cmp l).
Proof. apply (fold_insert_perm cmp l []). Qed.

Section NullsLast.

Variables (A : Type) (cmp : A -> A -> float) (last : A -> bool).

(** An element that goes last is negative against nothing, and every other
    element is negative against it. *)
Hypothesis last_never_negative :
  forall x y, last x = true -> (cmp x y <? 0)%float = false.
Hypothesis negative_against_last :
  forall x y, last x = false -> last y = true -> (cmp x y <? 0)%float = true.

Lemma insert_sorted_ends_with (x : A) (l : list A) :
  ends_with last l -> ends_with last (insert_sorted cmp x l).
Proof.
  induction l as [|y l IH]; cbn.
  - intros _. split; [intros _; constructor | exact I].
  - intros [Hy Hl].
    destruct (cmp x y <? 0)%float eqn:E; cbn.
    + split; [| split; assumption].
      intros Hx. rewrite (last_never_negative x y Hx) in E. discriminate.
    + split; [| apply IH, Hl].
      intros Hly.
      assert (Hx : last x = true).
      { destruct (last x) eqn:Ex; [reflexivity |].
        rewrite (negative_against_last x y Ex Hly) in E. discriminate. }
      eapply Permutation_Forall; [apply insert_sorted_perm |].
      constructor; [exact Hx | apply Hy, Hly].
Qed.

Lemma fold_insert_ends_with (l acc : list A) :
  ends_with last acc ->
  ends_with last (fold_left (fun acc x => insert_sorted cmp x acc) l acc).
Proof.
  revert acc. induction l as [|x l IH]; intros acc Hacc; cbn; [exact Hacc |].
  apply IH, insert_sorted_ends_with, Hacc.
Qed.

Lemma Array_sort_ends_with (l : list A) : ends_with last (Array_sort cmp l).
Proof. apply fold_insert_ends_with. exact I. Qed.

Lemma ends_with_positions (l : list A) (i j : nat) (a b : A) :
  ends_with last l ->
  l !! i = Some a -> l !! j = Some b ->
  last a = true -> last b = false -> j < i.
Proof.
  revert i j. induction l as [|x l IH]; intros i j Hl Hi Hj Ha Hb.
  - discriminate.
  - destruct Hl as [Hx Hl]. destruct i as [|i], j as [|j]; cbn in Hi, Hj.
    + congruence.
    + injection Hi as ->. specialize (Hx Ha).
      rewrite Forall_forall in Hx.
      assert (Hin : b ∈ l) by (apply list_elem_of_lookup; eauto).
      specialize (Hx b Hin). congruence.
    + lia.
    + specialize (IH i j Hl Hi Hj Ha Hb). lia.
Qed.

End NullsLast.

(** The comparator meets the two conditions, in both directions. *)
Lemma comparator_nullish_left (sortKey : string) (sortDir : SortDir) (a b : Row) :
  is_nullish (sort_value sortKey a) = true ->
  comparator sortKey sortDir a b = 1%float.
Proof. intros Ha. unfold comparator. rewrite Ha. reflexivity. Qed.

Lemma comparator_nullish_right (sortKey : string) (sortDir : SortDir) (a b : Row) :
  is_nullish (sort_value sortKey a) = false ->
  is_nullish (sort_value sortKey b) = true ->
  comparator sortKey sortDir a b = (-1)%float.
Proof. intros Ha Hb. unfold comparator. rewrite Ha, Hb. reflexivity. Qed.

(** C5.  If the value of row [a] under the sort key is null or undefined
    and that of row [b] is not, then in the sorted array, ascending or
    descending, both rows are present and every occurrence of [a] comes
    after every occurrence of [b]; the comparator decides the pair before
    the direction is looked at. *)
Theorem sorted_rows_nullish_last (sortKey : string) (sortDir : SortDir)
    (rows : list Row) (a b : Row) :
  In a rows -> In b rows ->
  is_nullish (sort_value sortKey a) = true ->
  is_nullish (sort_value sortKey b) = false ->
  let out := sorted_rows sortKey sortDir rows in
  In a out /\ In b out /\
  (forall i j, out !! i = Some a -> out !! j = Some b -> j < i) /\
  comparator sortKey sortDir a b = 1%float /\
  comparator sortKey sortDir b a = (-1)%float.
Proof.
  intros Hina Hinb Ha Hb out.
  assert (Hperm : Permutation rows out) by apply Array_sort_perm.
  split; [eapply Permutation_in; eassumption |].
  split; [eapply Permutation_in; eassumption |].
  split.
  - intros i j Hi Hj.
    eapply (ends_with_positions Row (fun r => is_nullish (sort_value sortKey r)) out);
      try eassumption.
    apply Array_sort_ends_with.
    + intros x y Hx. rewrite comparator_nullish_left by exact Hx. reflexivity.
    + intros x y Hx Hy. rewrite comparator_nullish_right by assumption. reflexivity.
  - split.
    + apply comparator_nullish_left, Ha.
    + apply comparator_nullish_right; assumption.
Qed.

(** C9.  [sortRows] leaves the array it is given as it was: the result is
    an array at a location that did not exist before, holding the rows of
    the argument in sorted order, and every array that existed before,
    the argument included, has the content it had. *)
Theorem sortRows_keeps_input (sortKey : string) (sortDir : SortDir)
    (h : Heap) (l : nat) (rows : list Row) :
  h !! l = Some rows ->
  exists (l' : nat) (h' : Heap),
    sortRows sortKey sortDir h l = Some (l', h') /\
    h !! l' = None /\
    h' !! l = Some rows /\
    (forall k, k <> l' -> h' !! k = h !! k) /\
    h' !! l' = Some (sorted_rows sortKey sortDir rows) /\
    Permutation rows (sorted_rows sortKey sortDir rows).
Proof.
  intros Hl.
  set (l' := fresh (dom h)).
  assert (Hfresh : h !! l' = None).
  { apply not_elem_of_dom. apply is_fresh. }
  assert (Hne : l' <> l) by congruence.
  exists l', (<[l' := sorted_rows sortKey sortDir rows]> h).
  split.
  { unfold sortRows, spread_copy, sort_in_place. rewrite Hl. cbn.
    fold l'. rewrite lookup_insert_eq. cbn.
    rewrite insert_insert_eq. reflexivity. }
  split; [exact Hfresh |].
  split; [rewrite lookup_insert_ne by exact Hne; exact Hl |].
  split; [intros k Hk; apply lookup_insert_ne; congruence |].
  split; [apply lookup_insert_eq |].
  apply Array_sort_perm.
Qed.

(** ** CSV export *)

Lemma append_cons (c : ascii) (s t : string) : String c s +:+ t = String c (s +:+ t).
Proof. reflexivity. Qed.

Lemma append_nil_r (s : string) : s +:+ "" = s.
Proof.
  induction s as [|c s IH]; [reflexivity |].
  rewrite append_cons, IH. reflexivity.
Qed.

Lemma append_assoc (a b c : string) : (a +:+ b) +:+ c = a +:+ b +:+ c.
Proof.
  induction a as [|x a IH]; [reflexivity |].
  rewrite !append_cons, IH. reflexivity.
Qed.

Lemma esc_field_text (v : value) : esc v = double_quotes (field_text v).
Proof. unfold esc, field_text. destruct (is_nullish v); reflexivity. Qed.

Lemma csv_row_quoted (r : Row) :
  csv_row r = join "," (map quoted (map (fun h => field_text (prop r h)) headers)).
Proof.
  unfold csv_row. rewrite map_map. f_equal.
  apply map_ext. intros h. rewrite esc_field_text. reflexivity.
Qed.

Lemma double_quotes_cons (c : ascii) (s : string) :
  double_quotes (String c s) =
  if Ascii.eqb c dquote then String dquote (String dquote (double_quotes s))
  else String c (double_quotes s).
Proof. reflexivity. Qed.

Lemma read_in_quotes (c : ascii) (cur : string) fs rs (rest : string) :
  Ascii.eqb c dquote = false ->
  csv_read_from Quoted cur fs rs (String c rest) =
  csv_read_from Quoted (cur +:+ str1 c) fs rs rest.
Proof. intros E. cbn [csv_read_from]. rewrite E. reflexivity. Qed.

Lemma read_two_quotes (cur : string) fs rs (rest : string) :
  csv_read_from Quoted cur fs rs (String dquote (String dquote rest)) =
  csv_read_from Quoted (cur +:+ str1 dquote) fs rs rest.
Proof. reflexivity. Qed.

(** Inside a quoted field the reader undoes the doubling. *)
Lemma read_doubled (s cur : string) fs rs (rest : string) :
  csv_read_from Quoted cur fs rs (double_quotes s +:+ rest) =
  csv_read_from Quoted (cur +:+ s) fs rs rest.
Proof.
  revert cur. induction s as [|c s IH]; intros cur.
  - rewrite append_nil_r. reflexivity.
  - rewrite double_quotes_cons.
    destruct (Ascii.eqb c dquote) eqn:E.
    + apply Ascii.eqb_eq in E. subst c.
      rewrite !append_cons, read_two_quotes, IH, append_assoc. reflexivity.
    + rewrite append_cons, read_in_quotes, IH, append_assoc by exact E.
      reflexivity.
Qed.

(** A quoted field is read up to its closing quote. *)
Lemma read_quoted (m : Mode) (s cur : string) fs rs (rest : string) :
  at_start m ->
  csv_read_from m cur fs rs (quoted s +:+ rest) =
  csv_read_from QuoteSeen s fs rs rest.
Proof.
  intros Hm. unfold quoted. rewrite !append_assoc.
  assert (E : csv_read_from m cur fs rs (str1 dquote +:+ double_quotes s +:+ str1 dquote +:+ rest) =
              csv_read_from Quoted "" fs rs (double_quotes s +:+ str1 dquote +:+ rest)).
  { destruct Hm as [-> | ->]; reflexivity. }
  rewrite E, read_doubled. reflexivity.
Qed.

(** A line of quoted fields is read as one record. *)
Lemma read_line (v : string) (vs : list string) (m : Mode) (cur : string)
    fs rs (rest : string) :
  at_start m -> line_end rest ->
  csv_read_from m cur fs rs (join "," (map quoted (v :: vs)) +:+ rest) =
  after_line (fs ++ v :: vs) rs rest.
Proof.
  intros Hm Hrest. revert v m cur fs Hm.
  induction vs as [|w vs IH]; intros v m cur fs Hm.
  - cbn [map join]. rewrite read_quoted by exact Hm.
    destruct Hrest as [-> | [more ->]]; reflexivity.
  - change (join "," (map quoted (v :: w :: vs)))
      with (quoted v +:+ "," +:+ join "," (map quoted (w :: vs))).
    rewrite !append_assoc, read_quoted by exact Hm.
    change (csv_read_from QuoteSeen v fs rs
              ("," +:+ join "," (map quoted (w :: vs)) +:+ rest))
      with (csv_read_from FieldStart "" (fs ++ [v]) rs
              (join "," (map quoted (w :: vs)) +:+ rest)).
    rewrite IH by (right; reflexivity).
    rewrite <- app_assoc. reflexivity.
Qed.

Lemma read_csv_row (r : Row) rs (rest : string) :
  line_end rest ->
  csv_read_from RecordStart "" [] rs (csv_row r +:+ rest) =
  after_line (row_fields r) rs rest.
Proof.
  intros Hrest. rewrite csv_row_quoted.
  apply (read_line _ _ RecordStart "" [] rs rest); [left; reflexivity | exact Hrest].
Qed.

(** The lines of the rows are read as one record each. *)
Lemma read_csv_rows (r : Row) (rows : list Row) rs :
  csv_read_from RecordStart "" [] rs (join (str1 LF) (map csv_row (r :: rows))) =
  rs ++ map row_fields (r :: rows).
Proof.
  revert r rs. induction rows as [|r' rows IH]; intros r rs.
  - cbn [map join]. rewrite <- (append_nil_r (csv_row r)).
    rewrite read_csv_row by (left; reflexivity). reflexivity.
  - change (join (str1 LF) (map csv_row (r :: r' :: rows)))
      with (csv_row r +:+ String LF (join (str1 LF) (map csv_row (r' :: rows)))).
    rewrite read_csv_row by (right; eexists; reflexivity).
    unfold after_line. rewrite IH, <- app_assoc. reflexivity.
Qed.

Lemma rowsToCsv_cons (r : Row) (rows : list Row) :
  rowsToCsv (r :: rows) =
  join "," headers +:+ String LF (join (str1 LF) (map csv_row (r :: rows))).
Proof. reflexivity. Qed.

(** C2, as amended.  Whatever the rows, the first line of the export is
    the header line, and its columns are the fourteen property names, the
    tier first. *)
Theorem rowsToCsv_header (rows : list Row) :
  first_line (rowsToCsv rows) =
    "tier,side,away,home,market_spread_home,fair_home_spread,required_buy_points,buy_to_line,p_current,p_target,p_buy,price_est,price_max_ok,ev_ok" /\
  header_columns (rowsToCsv rows) =
    [ "tier"; "side"; "away"; "home"; "market_spread_home"; "fair_home_spread";
      "required_buy_points"; "buy_to_line"; "p_current"; "p_target"; "p_buy";
      "price_est"; "price_max_ok"; "ev_ok" ].
Proof.
  unfold header_columns.
  destruct rows as [|r rows].
  - split; vm_compute; reflexivity.
  - rewrite rowsToCsv_cons.
    generalize (join (str1 LF) (map csv_row (r :: rows))). intros rest.
    split; reflexivity.
Qed.

Lemma field_text_number (o : option float) :
  field_text (of_nullable VNum o) = number_text o.
Proof. destruct o; reflexivity. Qed.

Lemma field_text_bool (o : option bool) :
  field_text (of_nullable VBool o) = bool_text o.
Proof. destruct o as [[|] |]; reflexivity. Qed.

Lemma row_fields_texts (r : Row) : row_fields r = row_texts r.
Proof.
  change (row_fields r) with
    [ tier r; side r; away r; home r;
      field_text (of_nullable VNum (market_spread_home r));
      field_text (of_nullable VNum (fair_home_spread r));
      field_text (of_nullable VNum (required_buy_points r));
      field_text (of_nullable VNum (buy_to_line r));
      field_text (of_nullable VNum (p_current r));
      field_text (of_nullable VNum (p_target r));
      field_text (of_nullable VNum (p_buy r));
      field_text (of_nullable VNum (price_est r));
      field_text (of_nullable VNum (price_max_ok r));
      field_text (of_nullable VBool (ev_ok r)) ].
  rewrite !field_text_number, field_text_bool. reflexivity.
Qed.

Lemma read_number_text (o : option float) :
  prints_numbers_faithfully engine ->
  recovered_number o (read_number (number_text o)).
Proof.
  intros [Hne Hback]. destruct o as [x |]; cbn; [| exact I].
  unfold read_number.
  destruct (String.eqb_spec (Number_toString x) "") as [E | _].
  - destruct (Hne x E).
  - apply Hback.
Qed.

Lemma read_bool_text (o : option bool) : read_bool (bool_text o) = Some o.
Proof. destruct o as [[|] |]; reflexivity. Qed.

Lemma read_row_texts (r : Row) :
  prints_numbers_faithfully engine ->
  exists r', read_row (row_texts r) = Some r' /\ recovered r r'.
Proof.
  intros H. unfold read_row, row_texts. rewrite read_bool_text. cbn.
  eexists. split; [reflexivity |].
  unfold recovered. cbn.
  repeat split; apply read_number_text, H.
Qed.

Lemma read_rows_texts (rows : list Row) :
  prints_numbers_faithfully engine ->
  exists rows',
    map read_row (map row_texts rows) = map Some rows' /\
    Forall2 recovered rows rows'.
Proof.
  intros H. induction rows as [|r rows (rows' & Hmap & Hall)].
  - exists []. split; [reflexivity | constructor].
  - destruct (read_row_texts r H) as (r' & Hr & Hrec).
    exists (r' :: rows'). cbn [map]. rewrite Hr, Hmap.
    split; [reflexivity | constructor; assumption].
Qed.

(** C6.  The export is the header line followed by one line for each row,
    joined by line feeds; each line is the fields of the row in header
    order, every one between double quotes with its own double quotes
    doubled, null and undefined giving the empty text.  A CSV reader gets
    back the header names and then, for each row in order, one record:
    the tier, the side and the two team names as they are, true or false
    for a boolean, the engine's text for a number, the empty text for
    null.  With an engine that converts numbers to text and back as
    ECMAScript prescribes, reading these records gives rows with the
    values of the original ones: the same strings, the same boolean or
    null, and the same number or null. *)
Theorem rowsToCsv_read_back (rows : list Row) :
  rowsToCsv rows =
    join (str1 LF)
      (join "," headers ::
       map (fun r => join "," (map (fun h => quoted (field_text (prop r h))) headers)) rows) /\
  field_text VNull = "" /\ field_text VUndefined = "" /\
  length (csv_read (rowsToCsv rows)) = S (length rows) /\
  csv_read (rowsToCsv rows) =
    headers :: map (fun r => map (fun h => field_text (prop r h)) headers) rows /\
  csv_read (rowsToCsv rows) = headers :: map row_texts rows /\
  (prints_numbers_faithfully engine ->
   exists rows',
     map read_row (tl (csv_read (rowsToCsv rows))) = map Some rows' /\
     Forall2 recovered rows rows').
Proof.
  assert (Hread : csv_read (rowsToCsv rows) =
    headers :: map (fun r => map (fun h => field_text (prop r h)) headers) rows).
  { destruct rows as [|r rows].
    - vm_compute. reflexivity.
    - rewrite rowsToCsv_cons. unfold csv_read.
      transitivity (csv_read_from RecordStart "" [] [headers]
                      (join (str1 LF) (map csv_row (r :: rows)))).
      + generalize (join (str1 LF) (map csv_row (r :: rows))). intros rest.
        reflexivity.
      + rewrite read_csv_rows. reflexivity. }
  assert (Htexts : csv_read (rowsToCsv rows) = headers :: map row_texts rows).
  { rewrite Hread. f_equal. apply map_ext. intros r.
    apply (row_fields_texts r). }
  split; [| split; [reflexivity | split; [reflexivity | split; [| split; [exact Hread |
    split; [exact Htexts |]]]]]].
  - unfold rowsToCsv. cbn [app]. do 2 f_equal.
    apply map_ext. intros r. rewrite csv_row_quoted, map_map. reflexivity.
  - rewrite Hread. cbn [length]. rewrite length_map. reflexivity.
  - intros H. rewrite Htexts. cbn [tl]. apply read_rows_texts, H.
Qed.

(** *** The engine that prints exactly *)

Lemma uint_has_no_p (d : Decimal.uint) : has_p (NilEmpty.string_of_uint d) = false.
Proof. induction d; cbn; auto. Qed.

Lemma int_has_no_p (d : Decimal.int) : has_p (NilEmpty.string_of_int d) = false.
Proof. destruct d; cbn; apply uint_has_no_p. Qed.

Lemma split_at_p (a b : string) :
  has_p a = false -> split_at "p" (a +:+ String "p" b) = Some (a, b).
Proof.
  induction a as [|c a IH]; [reflexivity |].
  cbn [has_p]. intros H. apply orb_false_iff in H. destruct H as [Hc Ha].
  rewrite append_cons. cbn [split_at]. rewrite Hc, (IH Ha). reflexivity.
Qed.

Lemma exact_parse_finite (z e : Z) :
  exact_parse (NilEmpty.string_of_int (Z.to_int z) +:+
               String "p" (NilEmpty.string_of_int (Z.to_int e))) =
  match z with
  | Z.pos m => SF2Prim (S754_finite false m e)
  | Z.neg m => SF2Prim (S754_finite true m e)
  | Z0 => nan
  end.
Proof.
  unfold exact_parse.
  rewrite split_at_p by apply int_has_no_p.
  rewrite !NilEmpty.isi, !DecimalZ.of_to. reflexivity.
Qed.

Lemma exact_engine_faithful : prints_numbers_faithfully exact_engine.
Proof.
  split; intros x; cbn [Number_toString Number_ofString exact_engine];
    unfold exact_number; pose proof (FloatAxioms.SF2Prim_Prim2SF x) as Hx;
    destruct (Prim2SF x) as [[|] | [|] | | neg m e].
  - discriminate.
  - discriminate.
  - discriminate.
  - discriminate.
  - discriminate.
  - destruct (NilEmpty.string_of_int _); discriminate.
  - right. rewrite <- Hx. reflexivity.
  - right. rewrite <- Hx. reflexivity.
  - left. rewrite <- Hx. reflexivity.
  - left. rewrite <- Hx. reflexivity.
  - left. rewrite <- Hx. reflexivity.
  - left. rewrite exact_parse_finite, <- Hx. destruct neg; reflexivity.
Qed.

(** ** Refreshing *)

(** One settled refresh either installs its result or leaves the display
    as it was and records a message. *)
Lemma doFetch_settle_shown (o : Order) (now : Z)
    (rep : Http.Fetched (option Report.Data))
    (gar : Http.Fetched (option Raw.Edges)) (s : State) :
  shown (doFetch_settle o now rep gar s) = default (shown s) (settled_result rep gar).
Proof.
  unfold doFetch_settle, settled_result.
  destruct (fetchReport rep) as [m1|r], (fetchGarbage gar) as [m2|g]; cbn;
    try reflexivity.
  destruct (Report.data r); reflexivity.
Qed.

Lemma doFetch_settle_rejected (o : Order) (now : Z)
    (rep : Http.Fetched (option Report.Data))
    (gar : Http.Fetched (option Raw.Edges)) (s : State) (m : string) :
  Promise_all o (fetchReport rep) (fetchGarbage gar) = Rejected m ->
  let s' := doFetch_settle o now rep gar s in
  shown s' = shown s /\ lastUpdated s' = lastUpdated s /\ err s' = Some m /\
  loading s' = false.
Proof.
  intros H. unfold doFetch_settle. rewrite H. cbn. repeat split.
Qed.

Lemma failed_status_report (rep : Http.Fetched (option Report.Data)) (code : nat) :
  failed_status rep = Some code ->
  fetchReport rep = Rejected ("WPP /report failed: " +:+ digits (Z.of_nat code)).
Proof.
  destruct rep as [m | res]; cbn; [discriminate |].
  unfold fetchReport. destruct (Http.ok res); cbn; [discriminate |].
  intros [= <-]. reflexivity.
Qed.

Lemma failed_status_garbage (gar : Http.Fetched (option Raw.Edges)) (code : nat) :
  failed_status gar = Some code ->
  fetchGarbage gar =
  Rejected ("WPP /best_edges (garbage) failed: " +:+ digits (Z.of_nat code)).
Proof.
  destruct gar as [m | res]; cbn; [discriminate |].
  unfold fetchGarbage. destruct (Http.ok res); cbn; [discriminate |].
  intros [= <-]. reflexivity.
Qed.

Lemma Promise_all_first_rejection {A B : Type} (o : Order) (a : Settled A)
    (b : Settled B) (m : string) :
  first_rejection o a b = Some m -> Promise_all o a b = Rejected m.
Proof.
  destruct o, a, b; cbn; intros [= <-]; reflexivity.
Qed.

(** C7, as amended.  When a call is answered with a status outside 200 to
    299, whatever happened to the other call, the rows, counts and
    diagnostics on display and the time of the last update are what they
    were, and the error is the message of the call that was rejected
    first.  A call answered with such a status is rejected with its
    endpoint and the status in decimal, and this is the error on display
    when that call settled first or the other call was fulfilled; it is
    the error on display in any case when both calls are answered and no
    body fails to parse. *)
Theorem refresh_fails_as_a_whole (o : Order) (now : Z)
    (rep : Http.Fetched (option Report.Data))
    (gar : Http.Fetched (option Raw.Edges)) (s : State) :
  failed_status rep <> None \/ failed_status gar <> None ->
  let s' := doFetch_settle o now rep gar s in
  let report_message code := "WPP /report failed: " +:+ digits (Z.of_nat code) in
  let garbage_message code :=
    "WPP /best_edges (garbage) failed: " +:+ digits (Z.of_nat code) in
  (fire s' = fire s /\ watch s' = watch s /\ garbage s' = garbage s /\
   shown s' = shown s /\ lastUpdated s' = lastUpdated s) /\
  (is_Some (err s') /\
   err s' = first_rejection o (fetchReport rep) (fetchGarbage gar)) /\
  (forall code, failed_status rep = Some code ->
     fetchReport rep = Rejected (report_message code) /\
     (o = report_first \/ (exists rows, fetchGarbage gar = Fulfilled rows) ->
      err s' = Some (report_message code))) /\
  (forall code, failed_status gar = Some code ->
     fetchGarbage gar = Rejected (garbage_message code) /\
     (o = garbage_first \/ (exists r, fetchReport rep = Fulfilled r) ->
      err s' = Some (garbage_message code))) /\
  (forall r1 r2, rep = Http.Responded r1 -> gar = Http.Responded r2 ->
     well_formed r1 -> well_formed r2 ->
     (Http.ok r1 = false /\ err s' = Some (report_message (Http.status r1))) \/
     (Http.ok r2 = false /\ err s' = Some (garbage_message (Http.status r2)))).
Proof.
  intros H s' report_message garbage_message.
  assert (Hfirst : exists m,
            first_rejection o (fetchReport rep) (fetchGarbage gar) = Some m).
  { destruct H as [H | H].
    - destruct (failed_status rep) as [code |] eqn:E; [| congruence].
      rewrite (failed_status_report rep code E).
      destruct o, (fetchGarbage gar); cbn; eauto.
    - destruct (failed_status gar) as [code |] eqn:E; [| congruence].
      rewrite (failed_status_garbage gar code E).
      destruct o, (fetchReport rep); cbn; eauto. }
  destruct Hfirst as [m Hm].
  destruct (doFetch_settle_rejected o now rep gar s m
              (Promise_all_first_rejection o _ _ m Hm))
    as (Hshown & Hlast & Herr & _).
  fold s' in Hshown, Hlast, Herr.
  split.
  { repeat split; try assumption.
    - apply (f_equal shown_fire) in Hshown; exact Hshown.
    - apply (f_equal shown_watch) in Hshown; exact Hshown.
    - apply (f_equal shown_garbage) in Hshown; exact Hshown. }
  split; [split; [rewrite Herr; eauto | congruence] |].
  split; [| split].
  - intros code E. pose proof (failed_status_report rep code E) as Hr.
    split; [exact Hr |].
    intros Hwhen. rewrite Herr, <- Hm, Hr.
    destruct Hwhen as [-> | [rows ->]]; [reflexivity |].
    destruct o; reflexivity.
  - intros code E. pose proof (failed_status_garbage gar code E) as Hg.
    split; [exact Hg |].
    intros Hwhen. rewrite Herr, <- Hm, Hg.
    destruct Hwhen as [-> | [r ->]]; [| destruct o; reflexivity].
    destruct (fetchReport rep); reflexivity.
  - intros r1 r2 -> -> W1 W2. rewrite Herr, <- Hm.
    unfold fetchReport, fetchGarbage, well_formed in *.
    destruct (Http.ok r1) eqn:E1, (Http.ok r2) eqn:E2; cbn.
    + exfalso. cbn in H. rewrite E1, E2 in H. destruct H; congruence.
    + right. split; [reflexivity |].
      destruct (Http.json r1) as [bad |] eqn:J; [destruct (W1 bad eq_refl) |].
      destruct o; reflexivity.
    + left. split; [reflexivity |].
      destruct (Http.json r2) as [bad |] eqn:J; [destruct (W2 bad eq_refl) |].
      destruct o; reflexivity.
    + destruct o; [left | right]; split; reflexivity.
Qed.

Lemma step_shown (m m' : Model) (e : Event) :
  step m e = Some m' ->
  shown (state m') =
  match e with
  | Settle _ _ _ rep gar => default (shown (state m)) (settled_result rep gar)
  | _ => shown (state m)
  end.
Proof.
  destruct e as [x | t | | i o now rep gar]; cbn.
  - destruct (same_metric x (metric (state m))); intros [= <-]; reflexivity.
  - destruct (PrimFloat.Leibniz.eqb t (debouncedTarget (state m)));
      intros [= <-]; reflexivity.
  - intros [= <-]. reflexivity.
  - destruct (pending m !! i); cbn; [| discriminate].
    intros [= <-]. cbn. apply doFetch_settle_shown.
Qed.

(** C1, as amended.  After any sequence of parameter changes, refreshes
    and settlements, what is on display is the result of the refresh that
    settled last with a result, whatever the parameters it was launched
    under and whatever the current ones: the last response wins. *)
Theorem shown_is_last_settled (trace : list Event) (m m' : Model) :
  run m trace = Some m' ->
  shown (state m') = last_settled trace (shown (state m)).
Proof.
  unfold last_settled. revert m.
  induction trace as [|e trace IH]; intros m; cbn.
  - intros [= <-]. reflexivity.
  - destruct (step m e) as [m1|] eqn:E; cbn; [| discriminate].
    intros Hrun. rewrite (IH m1 Hrun), (step_shown m m1 e E).
    destruct e; reflexivity.
Qed.

(** * Further properties *)

(** ** Flattening and tooltip *)

(** X1.  [mapPlayToRow] never tells null from missing, at any depth, nor a
    missing nested object from an empty one: the row of a play is the row
    of the play with every null removed and every nested object present.
    A play that is itself null or missing flattens like the empty play. *)
Theorem mapPlayToRow_null_is_missing (p : Opt Raw.Play.t) :
  mapPlayToRow p = mapPlayToRow (Val (clean_play p)).
Proof.
  destruct p as [| |[t rec g mk fr rq pb pr rs]]; [reflexivity | reflexivity |].
  unfold mapPlayToRow, clean_play. cbn.
  f_equal.
  - destruct t; reflexivity.
  - destruct rec; reflexivity.
  - destruct g as [| |[a h]]; try reflexivity. destruct a; reflexivity.
  - destruct g as [| |[a h]]; try reflexivity. destruct h; reflexivity.
  - destruct mk as [| |[sh sp]]; try reflexivity.
    destruct sh; try reflexivity;
      destruct sp as [| |[h]]; try reflexivity; destruct h; reflexivity.
  - destruct fr as [| |[h]]; try reflexivity. destruct h; reflexivity.
  - destruct rq as [| |[b l]]; try reflexivity. destruct b; reflexivity.
  - destruct rq as [| |[b l]]; try reflexivity. destruct l; reflexivity.
  - destruct pb as [| |[c t' b]]; try reflexivity. destruct c; reflexivity.
  - destruct pb as [| |[c t' b]]; try reflexivity. destruct t'; reflexivity.
  - destruct pb as [| |[c t' b]]; try reflexivity. destruct b; reflexivity.
  - destruct pr as [| |[f m e]]; try reflexivity. destruct f; reflexivity.
  - destruct pr as [| |[f m e]]; try reflexivity. destruct m; reflexivity.
  - destruct pr as [| |[f m e]]; try reflexivity. destruct e; reflexivity.
  - destruct rs; reflexivity.
Qed.

(** X2.  For a play whose tier, defaulted to Garbage, is neither Fire nor
    Watch and whose reason is a string that is not empty, the tooltip of
    the flattened row is that reason, whatever else the play holds. *)
Theorem play_reason_is_the_tooltip (p : Opt Raw.Play.t) (c : ascii) (s : string) :
  String.eqb (p ?. Raw.Play.tier ?? "Garbage") "Fire" = false ->
  String.eqb (p ?. Raw.Play.tier ?? "Garbage") "Watch" = false ->
  p ?. Raw.Play.reason = Val (String c s) ->
  explain (mapPlayToRow p) = String c s.
Proof.
  intros HF HW Hr. unfold explain.
  change (tier (mapPlayToRow p)) with (p ?. Raw.Play.tier ?? "Garbage").
  rewrite HF, HW.
  change (reason (mapPlayToRow p)) with (coalesce (p ?. Raw.Play.reason) Null).
  rewrite Hr. reflexivity.
Qed.

(** X3.  The tooltip of a Fire or Watch row does not depend on the reason
    of the row. *)
Theorem explain_ignores_reason (r : Row) (x : Opt string) :
  tier r = "Fire" \/ tier r = "Watch" ->
  explain (with_reason x r) = explain r.
Proof.
  intros [H | H]; unfold explain; cbn [tier with_reason]; rewrite H; reflexivity.
Qed.

(** ** The two backend calls *)

(** X4.  [fetchReport] on an answer is fulfilled exactly when the status is
    between 200 and 299 and the body parses; the data is then the parsed
    body and each diagnostic whose header is missing has its default: 0
    for the three numbers, MISS for the cache status.  It is rejected with
    the status message when the status is outside the range, whatever the
    body, and with the parse message otherwise. *)
Theorem fetchReport_outcome (res : Http.Response (option Report.Data)) :
  match fetchReport (Http.Responded res) with
  | Fulfilled r =>
      200 <= Http.status res <= 299 /\
      Http.json res = Http.Parsed (Report.data r) /\
      (Http.headers_get res "x-ratelimit-limit" = None ->
       Report.limit (Report.rate r) = 0%float) /\
      (Http.headers_get res "x-ratelimit-remaining" = None ->
       Report.remaining (Report.rate r) = 0%float) /\
      (Http.headers_get res "x-cache" = None ->
       Report.status (Report.cache r) = "MISS") /\
      (Http.headers_get res "x-cache-ttl" = None ->
       Report.ttl (Report.cache r) = 0%float)
  | Rejected m =>
      ((Http.status res < 200 \/ 299 < Http.status res) /\
       m = "WPP /report failed: " +:+ digits (Z.of_nat (Http.status res))) \/
      (200 <= Http.status res <= 299 /\ Http.json res = Http.Malformed m)
  end.
Proof.
  unfold fetchReport, Http.ok, header_number.
  destruct (Nat.leb_spec 200 (Http.status res)) as [E1 | E1];
    destruct (Nat.leb_spec (Http.status res) 299) as [E2 | E2];
    cbn [andb negb];
    try (left; split; [lia | reflexivity]).
  destruct (Http.json res) as [m | d]; cbn.
  - right. split; [lia | reflexivity].
  - split; [lia |]. split; [reflexivity |].
    repeat split; intros ->; reflexivity.
Qed.

(** ** Refreshing *)

(** X5.  A /best_edges answer whose body is null, or has no plays, or null
    plays, is not an error: with a report that is fulfilled with a body,
    the refresh succeeds and the Garbage table is empty. *)
Theorem no_plays_is_no_garbage (o : Order) (now : Z)
    (rep : Http.Fetched (option Report.Data))
    (res : Http.Response (option Raw.Edges))
    (r : Report.Result) (data : Report.Data) (body : option Raw.Edges) (s : State) :
  fetchReport rep = Fulfilled r ->
  Report.data r = Some data ->
  Http.ok res = true ->
  Http.json res = Http.Parsed body ->
  body = None \/ body = Some {| Raw.plays := Undefined |} \/
    body = Some {| Raw.plays := Null |} \/ body = Some {| Raw.plays := Val [] |} ->
  let s' := doFetch_settle o now rep (Http.Responded res) s in
  garbage s' = [] /\ err s' = err s /\ lastUpdated s' = Some now /\
  fire s' = Report.sections data ?. Report.fire ?? [].
Proof.
  intros Hrep Hdata Hok Hjson Hbody s'.
  subst s'. unfold doFetch_settle, fetchGarbage.
  rewrite Hrep, Hok, Hjson. cbn. rewrite Hdata. cbn.
  destruct Hbody as [-> | [-> | [-> | ->]]]; repeat split.
Qed.

(** X6.  A /report answer with a status in the range whose body is the
    JSON text null makes the whole refresh fail, whatever the other call
    gave when it is fulfilled: the [then] callback throws on its first
    read, nothing on display changes, and the error is the message of
    that TypeError. *)
Theorem null_report_fails_as_a_whole (o : Order) (now : Z)
    (res : Http.Response (option Report.Data))
    (gar : Http.Fetched (option Raw.Edges)) (rows : list Row) (s : State) :
  Http.ok res = true ->
  Http.json res = Http.Parsed None ->
  fetchGarbage gar = Fulfilled rows ->
  let s' := doFetch_settle o now (Http.Responded res) gar s in
  shown s' = shown s /\ lastUpdated s' = lastUpdated s /\
  err s' = Some (null_read_message "sections") /\ loading s' = false.
Proof.
  intros Hok Hjson Hgar s'. subst s'.
  unfold doFetch_settle, fetchReport. rewrite Hok, Hjson, Hgar. cbn.
  repeat split.
Qed.

(** X7.  A refresh that succeeds does not clear the error: when the message
    of an earlier failure is on display (an overlapping refresh failed
    after this one was started), the new rows are stored but the page
    still renders the error alone. *)
Theorem success_keeps_the_error (o : Order) (now : Z)
    (rep : Http.Fetched (option Report.Data))
    (gar : Http.Fetched (option Raw.Edges))
    (d : Shown) (c : ascii) (m : string) (s : State) :
  settled_result rep gar = Some d ->
  err s = Some (String c m) ->
  let s' := doFetch_settle o now rep gar s in
  shown s' = d /\ lastUpdated s' = Some now /\
  err s' = Some (String c m) /\ view s' = ErrorView (String c m).
Proof.
  intros Hd He s'. subst s'.
  unfold settled_result in Hd. unfold doFetch_settle, view.
  destruct (fetchReport rep) as [m1 | r]; [discriminate |].
  destruct (fetchGarbage gar) as [m2 | g]; [discriminate |].
  cbn. destruct (Report.data r) as [data |]; [| discriminate].
  injection Hd as <-. cbn. rewrite He. repeat split.
Qed.

Lemma run_app (m : Model) (t1 t2 : list Event) :
  run m (t1 ++ t2) = m1 ← run m t1; run m1 t2.
Proof.
  revert m. induction t1 as [|e t1 IH]; intros m; cbn; [reflexivity |].
  destruct (step m e) as [m1 |]; cbn; [apply IH | reflexivity].
Qed.

(** X8.  The loading flag follows the last event that did something, not
    the refreshes in flight.  After any trace, an event that starts a
    refresh (the button or a timer tick; a metric or a debounced target
    that differs from the current one) leaves the flag on, the error
    cleared and the page rendering Loading; a settlement leaves the flag
    off, however many refreshes are still pending; and a parameter set to
    the value it has changes nothing. *)
Theorem loading_follows_last_event (trace : list Event) (e : Event) (m m' : Model) :
  run m (trace ++ [e]) = Some m' ->
  exists m1,
    run m trace = Some m1 /\
    (starts_refresh (state m1) e = true ->
     loading (state m') = true /\ err (state m') = None /\
     view (state m') = LoadingView /\
     length (pending m') = S (length (pending m1))) /\
    (is_launch e = false ->
     loading (state m') = false /\ S (length (pending m')) = length (pending m1)) /\
    (is_launch e = true -> starts_refresh (state m1) e = false -> m' = m1).
Proof.
  rewrite run_app. destruct (run m trace) as [m1 |]; cbn; [| discriminate].
  destruct (step m1 e) as [m2 |] eqn:E; cbn; [| discriminate].
  intros [= <-]. exists m1. split; [reflexivity |].
  assert (Hlaunch : forall s,
            loading (state (launch s (pending m1))) = true /\
            err (state (launch s (pending m1))) = None /\
            view (state (launch s (pending m1))) = LoadingView /\
            length (pending (launch s (pending m1))) = S (length (pending m1))).
  { intros s. cbn. repeat split. rewrite length_app. cbn. lia. }
  destruct e as [x | t | | i o now rep gar]; cbn in E |- *.
  - destruct (same_metric x (metric (state m1))); injection E as <-; cbn [negb].
    + split; [discriminate |]. split; [discriminate | reflexivity].
    + split; [intros _; apply Hlaunch |]. split; discriminate.
  - destruct (PrimFloat.Leibniz.eqb t (debouncedTarget (state m1)));
      injection E as <-; cbn [negb].
    + split; [discriminate |]. split; [discriminate | reflexivity].
    + split; [intros _; apply Hlaunch |]. split; discriminate.
  - injection E as <-.
    split; [intros _; apply Hlaunch |]. split; discriminate.
  - destruct (pending m1 !! i) eqn:Ei; cbn in E; [| discriminate].
    injection E as <-. cbn.
    split; [discriminate |]. split; [| discriminate].
    intros _. split; [reflexivity |].
    assert (Hs : is_Some (pending m1 !! i)) by (rewrite Ei; eauto).
    apply lookup_lt_Some in Ei. rewrite (length_delete _ _ Hs). lia.
Qed.

Lemma same_metric_eq (x y : Metric) : same_metric x y = true -> x = y.
Proof. destruct x, y; (reflexivity || discriminate). Qed.

Lemma doFetch_settle_params (o : Order) (now : Z)
    (rep : Http.Fetched (option Report.Data))
    (gar : Http.Fetched (option Raw.Edges)) (s : State) :
  metric (doFetch_settle o now rep gar s) = metric s /\
  debouncedTarget (doFetch_settle o now rep gar s) = debouncedTarget s.
Proof.
  unfold doFetch_settle.
  destruct (Promise_all o (fetchReport rep) (fetchGarbage gar)) as [msg | [r g]];
    cbn; [split; reflexivity |].
  destruct (Report.data r); split; reflexivity.
Qed.

(** X9.  No answer changes the parameters: after any trace the metric and
    the debounced target are those of the last parameter events, however
    many refreshes settled in between and whatever they answered. *)
Theorem parameters_follow_parameter_events (trace : list Event) (m m' : Model) :
  run m trace = Some m' ->
  metric (state m') = last_metric trace (metric (state m)) /\
  debouncedTarget (state m') =
    last_debouncedTarget trace (debouncedTarget (state m)).
Proof.
  unfold last_metric, last_debouncedTarget. revert m.
  induction trace as [|e trace IH]; intros m; cbn.
  - intros [= <-]. split; reflexivity.
  - destruct (step m e) as [m1 |] eqn:E; cbn; [| discriminate].
    intros Hrun. destruct (IH m1 Hrun) as [-> ->].
    destruct e as [x | t | | i o now rep gar]; cbn in E.
    + destruct (same_metric x (metric (state m))) eqn:Ex;
        injection E as <-; [| split; reflexivity].
      apply same_metric_eq in Ex. rewrite Ex. split; reflexivity.
    + destruct (PrimFloat.Leibniz.eqb t (debouncedTarget (state m))) eqn:Et;
        injection E as <-; [| split; reflexivity].
      apply FloatAxioms.Leibniz.eqb_spec in Et. rewrite Et. split; reflexivity.
    + injection E as <-. split; reflexivity.
    + destruct (pending m !! i); cbn in E; [| discriminate].
      injection E as <-. cbn [state].
      destruct (doFetch_settle_params o now rep gar (state m)) as [-> ->].
      split; reflexivity.
Qed.

(** ** The table header *)

(** X10.  After a click on a header the table is sorted by its key; a click
    on another column than the current one sorts ascending; and a second
    click on the same header right after the first leaves the direction
    reversed when the column was new and restored when it was the current
    one. *)
Theorem click_header_toggles (h : string) (s : Sorting) :
  sortKey (click_header h s) = h /\
  (sortKey s <> h -> click_header h s = {| sortKey := h; sortDir := asc |} /\
                     click_header h (click_header h s) = {| sortKey := h; sortDir := desc |}) /\
  (sortKey s = h -> click_header h (click_header h s) = s).
Proof.
  unfold click_header.
  destruct (String.eqb (sortKey s) h) eqn:E.
  - apply String.eqb_eq in E. cbn. rewrite E, String.eqb_refl.
    split; [reflexivity |]. split; [congruence |].
    intros _. destruct s as [k d]. cbn in *. subst k. destruct d; reflexivity.
  - apply String.eqb_neq in E. cbn. rewrite String.eqb_refl.
    split; [reflexivity |]. split; [| congruence].
    intros _. split; reflexivity.
Qed.

(** ** Export *)

Lemma csv_read_rowsToCsv (rows : list Row) :
  csv_read (rowsToCsv rows) = headers :: map row_fields rows.
Proof.
  destruct rows as [|r rows].
  - vm_compute. reflexivity.
  - rewrite rowsToCsv_cons. unfold csv_read.
    transitivity (csv_read_from RecordStart "" [] [headers]
                    (join (str1 LF) (map csv_row (r :: rows)))).
    + generalize (join (str1 LF) (map csv_row (r :: rows))). intros rest.
      reflexivity.
    + rewrite read_csv_rows. reflexivity.
Qed.

(** X11.  The export never carries the reason: rows that differ in their
    reasons only give the same CSV text. *)
Theorem reason_is_not_exported (f : Row -> Opt string) (rows : list Row) :
  rowsToCsv (map (fun r => with_reason (f r) r) rows) = rowsToCsv rows.
Proof.
  unfold rowsToCsv. do 2 f_equal. rewrite map_map.
  apply map_ext. intros r. reflexivity.
Qed.

(** X12.  The file of a table holds the rows of that table as they are
    stored, in the order the backend gave them: read back, its records
    are the header names and then the field texts of each stored row.
    Neither the sorting of the page nor the other two tables matter. *)
Theorem exportCsv_reads_back (target : float) (s : State) (which : Which) :
  csv_read (blob (exportCsv target s which)) =
  headers ::
  map row_fields
    (match which with
     | which_fire => fire s
     | which_watch => watch s
     | which_garbage => garbage s
     end).
Proof.
  unfold exportCsv. cbn [blob]. apply csv_read_rowsToCsv.
Qed.

(** ** Timers *)

Lemma debounce_cleanup_clears {T : Type} (s : Debounce.t T) :
  Debounce.at_most_one s ->
  Debounce.timeouts (Debounce.run_cleanup s) = ∅ /\
  Debounce.v (Debounce.run_cleanup s) = Debounce.v s.
Proof.
  intros [H | (id & d & Hid & H)]; unfold Debounce.run_cleanup.
  - destruct (Debounce.cleanup s); cbn; [| auto].
    rewrite H. split; [apply delete_empty | reflexivity].
  - rewrite Hid. cbn. rewrite H. split; [apply delete_singleton_eq | reflexivity].
Qed.

Lemma debounce_change_arms_one {T : Type} (s : Debounce.t T) (dep : T * float) :
  Debounce.at_most_one s ->
  let s' := Debounce.change s dep in
  Debounce.v s' = Debounce.v s /\
  exists id, Debounce.cleanup s' = Some id /\ Debounce.timeouts s' = {[ id := dep ]}.
Proof.
  intros H. destruct (debounce_cleanup_clears s H) as [He Hv].
  cbn zeta. unfold Debounce.change, Debounce.effect. cbn.
  split; [exact Hv |].
  eexists. split; [reflexivity |]. rewrite He. destruct dep. reflexivity.
Qed.

Lemma debounce_fire_clears {T : Type} (s s' : Debounce.t T) (id : positive) :
  Debounce.at_most_one s ->
  Debounce.fire id s = Some s' ->
  Debounce.timeouts s' = ∅ /\
  exists ms, Debounce.timeouts s = {[ id := (Debounce.v s', ms) ]}.
Proof.
  intros H. unfold Debounce.fire.
  destruct (Debounce.timeouts s !! id) as [[val ms] |] eqn:E; [| discriminate].
  intros [= <-]. cbn.
  destruct H as [H | (id' & d & _ & H)]; rewrite H in E |- *.
  - rewrite lookup_empty in E. discriminate.
  - apply lookup_singleton_Some in E. destruct E as [-> ->].
    split; [apply delete_singleton_eq | eauto].
Qed.

Lemma debounce_step_at_most_one {T : Type} (s s' : Debounce.t T) (e : Debounce.event T) :
  Debounce.at_most_one s -> Debounce.step s e = Some s' -> Debounce.at_most_one s'.
Proof.
  intros H. destruct e as [val ms | id]; cbn.
  - intros [= <-].
    destruct (debounce_change_arms_one s (val, ms) H) as (_ & id & Hc & Ht).
    right. eauto.
  - intros E. left. apply (debounce_fire_clears s s' id H E).
Qed.

Lemma debounce_run_at_most_one {T : Type} (trace : list (Debounce.event T))
    (s s' : Debounce.t T) :
  Debounce.at_most_one s -> Debounce.run s trace = Some s' -> Debounce.at_most_one s'.
Proof.
  revert s. induction trace as [|e trace IH]; intros s H; cbn.
  - intros [= <-]. exact H.
  - destruct (Debounce.step s e) as [s1 |] eqn:E; cbn; [| discriminate].
    apply IH. apply (debounce_step_at_most_one s s1 e H E).
Qed.

Lemma debounce_mount_at_most_one {T : Type} (val : T) (ms : float) :
  Debounce.at_most_one (Debounce.mount val ms).
Proof. right. eexists _, _. split; reflexivity. Qed.

(** X13.  In every state the hook reaches from its first render, through
    changes of the value and timeouts that fire, at most one timeout is
    armed, because each run of the effect first clears the one before.
    From such a state, however many times the value changes before a
    timeout fires, the debounced value stays what it was and the only
    timeout armed is the one of the last change; no other handle fires,
    and when that one fires the debounced value becomes the last value
    given and no timeout is left. *)
Theorem debounce_last_value_wins {T : Type} (val0 : T) (ms0 : float)
    (history : list (Debounce.event T)) (s0 : Debounce.t T)
    (burst : list (T * float)) (x : T) (ms : float) :
  Debounce.run (Debounce.mount val0 ms0) history = Some s0 ->
  let s := fold_left Debounce.change (burst ++ [(x, ms)]) s0 in
  Debounce.at_most_one s0 /\
  Debounce.v s = Debounce.v s0 /\
  exists id,
    Debounce.timeouts s = {[ id := (x, ms) ]} /\
    (forall id', id' <> id -> Debounce.fire id' s = None) /\
    exists s',
      Debounce.fire id s = Some s' /\
      Debounce.v s' = x /\ Debounce.timeouts s' = ∅.
Proof.
  intros Hrun.
  assert (H0 : Debounce.at_most_one s0).
  { apply (debounce_run_at_most_one history _ s0 (debounce_mount_at_most_one val0 ms0) Hrun). }
  cbn zeta. split; [exact H0 |].
  rewrite fold_left_app. cbn [fold_left].
  assert (H1 : Debounce.at_most_one (fold_left Debounce.change burst s0) /\
               Debounce.v (fold_left Debounce.change burst s0) = Debounce.v s0).
  { clear Hrun. revert s0 H0. induction burst as [|d burst IH]; intros s0 H0; cbn.
    - split; [exact H0 | reflexivity].
    - destruct (debounce_change_arms_one s0 d H0) as (Hv & id & Hc & Ht).
      destruct (IH (Debounce.change s0 d)) as [Hinv Hv'].
      + right. eauto.
      + split; [exact Hinv | congruence]. }
  destruct H1 as [H1 Hv1].
  destruct (debounce_change_arms_one _ (x, ms) H1) as (Hv & id & Hc & Ht).
  cbn zeta in Hv, Hc, Ht.
  split; [congruence |].
  exists id. split; [exact Ht |]. split.
  - intros id' Hne. unfold Debounce.fire. rewrite Ht.
    rewrite lookup_singleton_ne by congruence. reflexivity.
  - unfold Debounce.fire. rewrite Ht, lookup_singleton_eq.
    eexists. split; [reflexivity |]. cbn.
    split; [reflexivity | apply delete_singleton_eq].
Qed.

Lemma clear_current_at_most (s : AutoRefresh.t) :
  AutoRefresh.at_most_current s ->
  AutoRefresh.timerRef s = None \/
  AutoRefresh.intervals (AutoRefresh.clear_current s) = ∅.
Proof.
  intros [H | (id & delay & Hid & H)]; unfold AutoRefresh.clear_current.
  - destruct (AutoRefresh.timerRef s) eqn:E; [right | left; reflexivity].
    cbn. rewrite H. apply delete_empty.
  - right. rewrite Hid. cbn. rewrite H. apply delete_singleton_eq.
Qed.

Lemma clear_current_keeps (s : AutoRefresh.t) :
  AutoRefresh.at_most_current s ->
  AutoRefresh.at_most_current (AutoRefresh.clear_current s) /\
  AutoRefresh.timerRef (AutoRefresh.clear_current s) = AutoRefresh.timerRef s.
Proof.
  intros H. split.
  - destruct (clear_current_at_most s H) as [Hn | He].
    + unfold AutoRefresh.clear_current. rewrite Hn. exact H.
    + left. exact He.
  - unfold AutoRefresh.clear_current.
    destruct (AutoRefresh.timerRef s) eqn:E; [reflexivity | exact E].
Qed.

Lemma effect_at_most (b : bool) (secs : float) (s : AutoRefresh.t) :
  AutoRefresh.at_most_current s ->
  let s' := AutoRefresh.effect b secs s in
  if b then
    exists id delay,
      AutoRefresh.timerRef s' = Some id /\ AutoRefresh.intervals s' = {[ id := delay ]}
  else AutoRefresh.intervals s' = ∅ /\ AutoRefresh.timerRef s' = None.
Proof.
  intros H. cbn zeta. unfold AutoRefresh.effect.
  assert (He : AutoRefresh.intervals (AutoRefresh.clear_current s) = ∅).
  { destruct (clear_current_at_most s H) as [Hn | He]; [| exact He].
    unfold AutoRefresh.clear_current. rewrite Hn.
    destruct H as [H | (id & delay & Hid & _)]; [exact H | congruence]. }
  destruct b; cbn.
  - eexists _, _. split; [reflexivity |]. rewrite He. reflexivity.
  - split; [exact He | reflexivity].
Qed.

Lemma rerun_at_most (s : AutoRefresh.t) (deps : bool * float) :
  AutoRefresh.at_most_current s ->
  let s' := AutoRefresh.rerun s deps in
  AutoRefresh.at_most_current s' /\
  (fst deps = false -> AutoRefresh.intervals s' = ∅) /\
  (fst deps = true -> exists id delay,
      AutoRefresh.timerRef s' = Some id /\ AutoRefresh.intervals s' = {[ id := delay ]}).
Proof.
  intros H. cbn zeta. unfold AutoRefresh.rerun.
  assert (H1 : AutoRefresh.at_most_current
                 (if AutoRefresh.cleanup s then AutoRefresh.clear_current s else s)).
  { destruct (AutoRefresh.cleanup s); [apply clear_current_keeps, H | exact H]. }
  pose proof (effect_at_most (fst deps) (snd deps) _ H1) as H2. cbn zeta in H2.
  destruct (fst deps).
  - split; [right; exact H2 |]. split; [discriminate | intros _; exact H2].
  - destruct H2 as [H2 _]. split; [left; exact H2 |].
    split; [intros _; exact H2 | discriminate].
Qed.

(** X14.  Whatever the sequence of changes of the auto-refresh switch, the
    period and the parameters, the component never has two intervals
    running, the one that runs is the one in [timerRef], none runs after
    a change that leaves the switch off, exactly one after a change that
    leaves it on, and none once the component is unmounted. *)
Theorem one_interval_at_most (changes : list (bool * float)) (last : bool * float) :
  let s := fold_left AutoRefresh.rerun (changes ++ [last]) AutoRefresh.start in
  AutoRefresh.at_most_current s /\
  (fst last = false -> AutoRefresh.intervals s = ∅) /\
  (fst last = true -> exists id delay,
      AutoRefresh.timerRef s = Some id /\ AutoRefresh.intervals s = {[ id := delay ]}) /\
  AutoRefresh.intervals (AutoRefresh.unmount s) = ∅.
Proof.
  cbn zeta. rewrite fold_left_app. cbn [fold_left].
  assert (H : AutoRefresh.at_most_current
                (fold_left AutoRefresh.rerun changes AutoRefresh.start)).
  { assert (H0 : AutoRefresh.at_most_current AutoRefresh.start) by (left; reflexivity).
    revert H0. generalize AutoRefresh.start.
    induction changes as [|d changes IH]; intros s0 H0; cbn; [exact H0 |].
    apply IH. apply (rerun_at_most s0 d H0). }
  destruct (rerun_at_most _ last H) as (Hinv & Hoff & Hon).
  split; [exact Hinv |]. split; [exact Hoff |]. split; [exact Hon |].
  set (s := AutoRefresh.rerun _ last) in *.
  unfold AutoRefresh.unmount.
  destruct (AutoRefresh.cleanup s) eqn:Ec.
  - destruct (clear_current_at_most s Hinv) as [Hn | He]; [| exact He].
    unfold AutoRefresh.clear_current. rewrite Hn.
    destruct Hinv as [H' | (id & delay & Hid & _)]; [exact H' | congruence].
  - destruct (fst last) eqn:El.
    + exfalso. subst s. unfold AutoRefresh.rerun, AutoRefresh.effect in Ec.
      rewrite El in Ec. cbn in Ec. discriminate.
    + apply Hoff. reflexivity.
Qed.

End Properties.

(** * Closed instances

    The statements above at concrete inputs, under [plain_engine]. *)

(** C1, counterexample.  The target goes to 0.60 and then to 0.70; the
    refresh for 0.70 settles and its rows are on display; the refresh for
    0.60, still in flight at position 0, then settles, and its rows
    replace them although the target is still 0.70. *)
Lemma stale_settle_overwrites :
  ~ (forall m1,
       run (engine := plain_engine) mounted newer_settles_first = Some m1 ->
       stale_settle_is_dropped (engine := plain_engine) m1 0 report_first 2000
         (report_with [row_unknown_buy]) no_edges).
Proof.
  intros H.
  destruct (run (engine := plain_engine) mounted newer_settles_first) as [m1|] eqn:E;
    [| discriminate].
  specialize (H m1 eq_refl).
  vm_compute in E. injection E as <-.
  unfold stale_settle_is_dropped in H.
  assert (Hne : 0.6%float <> 0.7%float).
  { intros Heq.
    assert (Hlt : (0.6 <? 0.6)%float = (0.6 <? 0.7)%float)
      by (rewrite <- Heq; reflexivity).
    vm_compute in Hlt. discriminate. }
  specialize (H {| par_metric := spread; par_targetProb := 0.6%float |} _
                eq_refl (or_introl Hne) eq_refl).
  vm_compute in H. discriminate.
Qed.

(** C1, instance of the amended statement on the same trace. *)
Lemma shown_is_last_settled_witness :
  exists m',
    run (engine := plain_engine) mounted newer_settles_first = Some m' /\
    shown (state m') =
      last_settled (engine := plain_engine) newer_settles_first (shown (state mounted)).
Proof.
  eexists. split.
  - vm_compute. reflexivity.
  - apply (shown_is_last_settled (engine := plain_engine) newer_settles_first mounted).
    vm_compute. reflexivity.
Defined.

(** C2, counterexample.  The header of the export of no row has the tier
    as its first column. *)
Lemma export_header_has_tier :
  ~ (forall (engine : Engine) (rows : list Row),
       header_columns (rowsToCsv rows) = columns_without_tier /\
       ~ In "tier" (header_columns (rowsToCsv rows))).
Proof.
  intros H. destruct (H plain_engine []) as [E _].
  vm_compute in E. discriminate.
Qed.

(** C3, counterexample.  The side of the row of the empty play is the text
    none, not null. *)
Lemma empty_play_side_is_not_null :
  ~ (forall h, In h row_keys -> h <> "tier" ->
       prop (mapPlayToRow (Val Raw.Play.empty)) h = VNull).
Proof.
  intros H.
  assert (E : prop (mapPlayToRow (Val Raw.Play.empty)) "side" = VNull).
  { apply H; [cbn; auto | discriminate]. }
  vm_compute in E. discriminate.
Qed.

(** C4, instance: a Garbage row with a reason. *)
Lemma explain_nonempty_and_reason_witness :
  tier row_with_reason = "Garbage" /\
  reason row_with_reason = Val "non-key buy" /\
  explain (engine := plain_engine) row_with_reason <> "" /\
  explain (engine := plain_engine) row_with_reason = "non-key buy".
Proof.
  destruct (explain_nonempty_and_reason (engine := plain_engine) row_with_reason)
    as (Hne & Hreason & _).
  split; [reflexivity |]. split; [reflexivity |]. split; [exact Hne |].
  apply Hreason; reflexivity.
Defined.

(** C5, instance: two rows, sorted by [p_buy], descending. *)
Lemma sorted_rows_nullish_last_witness :
  let rows := [row_unknown_buy; row_known_buy] in
  let out := sorted_rows (engine := plain_engine) "p_buy" desc rows in
  In row_unknown_buy out /\ In row_known_buy out /\
  (forall i j, out !! i = Some row_unknown_buy -> out !! j = Some row_known_buy -> j < i) /\
  comparator (engine := plain_engine) "p_buy" desc row_unknown_buy row_known_buy = 1%float /\
  comparator (engine := plain_engine) "p_buy" desc row_known_buy row_unknown_buy = (-1)%float.
Proof.
  apply (sorted_rows_nullish_last (engine := plain_engine) "p_buy" desc
           [row_unknown_buy; row_known_buy] row_unknown_buy row_known_buy).
  - simpl. auto.
  - simpl. auto.
  - reflexivity.
  - reflexivity.
Defined.

(** C6, instance: two rows, one with three numbers and one with none,
    exported and read back under the engine that prints exactly. *)
Lemma rowsToCsv_read_back_witness :
  prints_numbers_faithfully exact_engine /\
  map (read_row (engine := exact_engine))
    (tl (csv_read (rowsToCsv (engine := exact_engine) [row_known_buy; row_unknown_buy]))) =
    [ Some (with_reason Undefined row_known_buy);
      Some (with_reason Undefined row_unknown_buy) ] /\
  exists rows',
    map (read_row (engine := exact_engine))
      (tl (csv_read (rowsToCsv (engine := exact_engine) [row_known_buy; row_unknown_buy]))) =
    map Some rows' /\
    Forall2 recovered [row_known_buy; row_unknown_buy] rows'.
Proof.
  split; [exact exact_engine_faithful |].
  split; [vm_compute; reflexivity |].
  destruct (rowsToCsv_read_back (engine := exact_engine) [row_known_buy; row_unknown_buy])
    as (_ & _ & _ & _ & _ & _ & Hvalues).
  exact (Hvalues exact_engine_faithful).
Defined.

(** C7, counterexample.  The report is answered with status 200 and a body
    that is not JSON, the garbage call with status 503, and the report
    call is rejected first: the error on display is the parse message,
    which names neither the endpoint that answered 503 nor the status. *)
Lemma parse_error_is_surfaced :
  ~ (forall (engine : Engine) (o : Order) (now : Z)
       (r1 : Http.Response (option Report.Data))
       (r2 : Http.Response (option Raw.Edges)) (s : State) (m : string),
       Http.ok r1 = false \/ Http.ok r2 = false ->
       err (doFetch_settle o now (Http.Responded r1) (Http.Responded r2) s) = Some m ->
       names_failed_call m r1 r2).
Proof.
  intros H.
  specialize (H plain_engine report_first 0%Z report_not_json (answer_status 503) initial
                "Unexpected token < in JSON at position 0" (or_intror eq_refl) eq_refl).
  destruct H as [[Hok _] | [_ [Hname _]]].
  - vm_compute in Hok. discriminate.
  - vm_compute in Hname. discriminate.
Qed.

(** C7, instance of the amended statement: the report answers 500 after
    the garbage call was fulfilled. *)
Lemma refresh_fails_as_a_whole_witness :
  failed_status (Http.Responded (answer_status (B := Report.Data) 500)) = Some 500 /\
  err (doFetch_settle (engine := plain_engine) garbage_first 0
         (Http.Responded (answer_status 500)) no_edges initial) =
    Some "WPP /report failed: 500" /\
  fire (doFetch_settle (engine := plain_engine) garbage_first 0
          (Http.Responded (answer_status 500)) no_edges initial) = fire initial.
Proof.
  assert (Hfailed : failed_status (Http.Responded (answer_status (B := Report.Data) 500))
                    = Some 500) by reflexivity.
  pose proof (refresh_fails_as_a_whole (engine := plain_engine) garbage_first 0
                (Http.Responded (answer_status 500)) no_edges initial) as H.
  cbv zeta in H.
  destruct H as ((Hfire & _) & _ & Hreport & _).
  - left. rewrite Hfailed. discriminate.
  - split; [exact Hfailed |]. split; [| exact Hfire].
    destruct (Hreport 500 Hfailed) as [_ Herr].
    apply Herr. right. eexists. reflexivity.
Defined.

(** C9, instance: the store holds one array, at location 0. *)
Lemma sortRows_keeps_input_witness :
  let h : Heap := {[ 0 := [row_unknown_buy; row_known_buy] ]} in
  h !! 0 = Some [row_unknown_buy; row_known_buy] /\
  exists (l' : nat) (h' : Heap),
    sortRows (engine := plain_engine) "p_buy" asc h 0 = Some (l', h') /\
    h !! l' = None /\
    h' !! 0 = Some [row_unknown_buy; row_known_buy] /\
    (forall k, k <> l' -> h' !! k = h !! k) /\
    h' !! l' = Some (sorted_rows (engine := plain_engine) "p_buy" asc
                       [row_unknown_buy; row_known_buy]) /\
    Permutation [row_unknown_buy; row_known_buy]
      (sorted_rows (engine := plain_engine) "p_buy" asc [row_unknown_buy; row_known_buy]).
Proof.
  intros h.
  assert (Hl : h !! 0 = Some [row_unknown_buy; row_known_buy]) by reflexivity.
  split; [exact Hl |].
  exact (sortRows_keeps_input (engine := plain_engine) "p_buy" asc h 0 _ Hl).
Defined.

(** C10, instance: the same row on both sides, sorted by [p_buy]. *)
Lemma comparator_both_nullish_witness :
  is_nullish (sort_value "p_buy" row_unknown_buy) = true /\
  comparator (engine := plain_engine) "p_buy" desc row_unknown_buy row_unknown_buy = 1%float.
Proof.
  split; [reflexivity |].
  apply (comparator_both_nullish (engine := plain_engine) "p_buy" desc
           row_unknown_buy row_unknown_buy); reflexivity.
Defined.

(** * Closed instances of the further properties *)

(** X2, instance: a play with a null tier and a reason. *)
Lemma play_reason_is_the_tooltip_witness :
  explain (engine := plain_engine) (mapPlayToRow (Val play_with_reason)) =
  "price above cap".
Proof.
  apply (play_reason_is_the_tooltip (engine := plain_engine)
           (Val play_with_reason) "p"%char "rice above cap"); reflexivity.
Defined.

(** X3, instance: a Watch row given a reason. *)
Lemma explain_ignores_reason_witness :
  tier row_known_buy = "Watch" /\
  explain (engine := plain_engine) (with_reason (Val "late scratch") row_known_buy) =
  explain (engine := plain_engine) row_known_buy.
Proof.
  split; [reflexivity |].
  apply (explain_ignores_reason (engine := plain_engine)). right. reflexivity.
Defined.

(** X4, instance: an answer with status 404. *)
Lemma fetchReport_outcome_witness :
  fetchReport (engine := plain_engine) (Http.Responded (answer_status 404)) =
  Rejected "WPP /report failed: 404".
Proof.
  pose proof (fetchReport_outcome (engine := plain_engine) (answer_status 404)) as H.
  destruct (fetchReport (engine := plain_engine) (Http.Responded (answer_status 404)))
    as [m | r] eqn:E.
  - destruct H as [[_ ->] | [[_ H] _]].
    + reflexivity.
    + cbn in H. lia.
  - vm_compute in E. discriminate.
Defined.

(** X5, instance: a report with one Fire row, edges with a null body. *)
Lemma no_plays_is_no_garbage_witness :
  garbage (doFetch_settle (engine := plain_engine) report_first 7
             (report_with [row_known_buy]) (Http.Responded (answer_status 200))
             failed_state) = [] /\
  fire (doFetch_settle (engine := plain_engine) report_first 7
          (report_with [row_known_buy]) (Http.Responded (answer_status 200))
          failed_state) = [row_known_buy].
Proof.
  edestruct (no_plays_is_no_garbage (engine := plain_engine) report_first 7
               (report_with [row_known_buy]) (answer_status 200))
    as (Hg & _ & _ & Hf).
  - vm_compute. reflexivity.
  - reflexivity.
  - reflexivity.
  - reflexivity.
  - left. reflexivity.
  - split; [exact Hg | exact Hf].
Defined.

(** X6, instance: the report body is null, the edges are fine. *)
Lemma null_report_fails_as_a_whole_witness :
  shown (doFetch_settle (engine := plain_engine) garbage_first 7 report_null
           no_edges failed_state) = shown failed_state /\
  err (doFetch_settle (engine := plain_engine) garbage_first 7 report_null
         no_edges failed_state) =
    Some "Cannot read properties of null (reading 'sections')".
Proof.
  destruct (null_report_fails_as_a_whole (engine := plain_engine) garbage_first 7
              (answer_status 200) no_edges [] failed_state)
    as (Hs & _ & He & _).
  - reflexivity.
  - reflexivity.
  - reflexivity.
  - split; [exact Hs | exact He].
Defined.

(** X7, instance, on a state the component reaches: two refreshes are
    started, the first is answered 500, the second succeeds. *)
Lemma success_keeps_the_error_witness :
  exists m3,
    run (engine := plain_engine) mounted
      [ Refresh; Refresh;
        Settle 0 report_first 1 (Http.Responded (answer_status 500)) no_edges ] = Some m3 /\
    let s' := doFetch_settle (engine := plain_engine) report_first 2
                (report_with [row_known_buy]) no_edges (state m3) in
    fire s' = [row_known_buy] /\
    view s' = ErrorView "WPP /report failed: 500".
Proof.
  eexists. split.
  - vm_compute. reflexivity.
  - cbv zeta.
    match goal with
    | |- context [doFetch_settle _ _ _ _ ?st] =>
        edestruct (success_keeps_the_error (engine := plain_engine) report_first 2
                     (report_with [row_known_buy]) no_edges) with (s := st)
          as (Hs & _ & _ & Hv)
    end.
    + vm_compute. reflexivity.
    + vm_compute. reflexivity.
    + split; [| exact Hv].
      apply (f_equal shown_fire) in Hs. exact Hs.
Defined.

(** X8, instance: two refreshes are started and the first settles; one is
    still in flight and the flag is off. *)
Lemma loading_follows_last_event_witness :
  exists m1 m',
    run (engine := plain_engine) mounted [Refresh; Refresh] = Some m1 /\
    run (engine := plain_engine) mounted
      ([Refresh; Refresh] ++ [Settle 0 report_first 1 (report_with []) no_edges]) = Some m' /\
    length (pending m1) = 2 /\
    length (pending m') = 1 /\
    loading (state m') = false.
Proof.
  destruct (loading_follows_last_event (engine := plain_engine)
              [Refresh; Refresh]
              (Settle 0 report_first 1 (report_with []) no_edges)
              mounted
              {| state :=
                   doFetch_settle (engine := plain_engine) report_first 1
                     (report_with []) no_edges (doFetch_start (doFetch_start initial));
                 pending := [current_params initial] |})
    as (m1 & Hrun & _ & Hsettle & _).
  - vm_compute. reflexivity.
  - destruct (Hsettle eq_refl) as [Hload Hlen].
    exists m1. eexists. split; [exact Hrun |].
    split; [vm_compute; reflexivity |].
    vm_compute in Hrun. injection Hrun as <-.
    split; [reflexivity |]. split; [reflexivity |]. exact Hload.
Defined.

(** X9, instance: the trace in which the target moves twice and one
    refresh settles. *)
Lemma parameters_follow_parameter_events_witness :
  exists m',
    run (engine := plain_engine) mounted newer_settles_first = Some m' /\
    metric (state m') = spread /\
    debouncedTarget (state m') = 0.7%float.
Proof.
  eexists. split; [vm_compute; reflexivity |].
  refine (parameters_follow_parameter_events (engine := plain_engine)
            newer_settles_first mounted _ _).
  vm_compute. reflexivity.
Defined.

(** X10, instance: from the initial sorting, two clicks on Side. *)
Lemma click_header_toggles_witness :
  sortKey initial_sorting <> "side" /\
  click_header "side" initial_sorting = {| sortKey := "side"; sortDir := asc |} /\
  click_header "side" (click_header "side" initial_sorting) =
    {| sortKey := "side"; sortDir := desc |}.
Proof.
  assert (Hne : sortKey initial_sorting <> "side") by discriminate.
  split; [exact Hne |].
  destruct (click_header_toggles "side" initial_sorting) as (_ & Hnew & _).
  exact (Hnew Hne).
Defined.

(** X13, instance: mounted at 0.65, the first timeout fires; the slider
    then goes through 0.66 and 0.67 to 0.68 before the next one does. *)
Lemma debounce_last_value_wins_witness :
  exists s0,
    Debounce.run (Debounce.mount 0.65%float 250%float) [Debounce.Fire 1%positive] = Some s0 /\
    let s :=
      fold_left Debounce.change
        ([(0.66%float, 250%float); (0.67%float, 250%float)] ++ [(0.68%float, 250%float)])
        s0 in
    Debounce.v s = 0.65%float /\
    exists id s',
      Debounce.timeouts s = {[ id := (0.68%float, 250%float) ]} /\
      Debounce.fire id s = Some s' /\
      Debounce.v s' = 0.68%float /\ Debounce.timeouts s' = ∅.
Proof.
  eexists. split; [reflexivity |].
  edestruct (debounce_last_value_wins 0.65%float 250%float [Debounce.Fire 1%positive])
    as (_ & Hv & id & Ht & _ & s' & Hf & Hv' & He).
  - reflexivity.
  - split; [exact Hv |]. exists id, s'. repeat split; eassumption.
Defined.

(** X14, instance: auto-refresh on, the period changed, then off. *)
Lemma one_interval_at_most_witness :
  AutoRefresh.intervals
    (fold_left AutoRefresh.rerun
       ([(true, 60%float); (true, 30%float)] ++ [(false, 30%float)])
       AutoRefresh.start) = ∅.
Proof.
  destruct (one_interval_at_most [(true, 60%float); (true, 30%float)] (false, 30%float))
    as (_ & Hoff & _).
  apply Hoff. reflexivity.
Defined.
